(** * Video advertisement pipeline: a shallow embedding of its control flow

    The development follows the repository's Python sources:

    - [enhanced_tools.py]: the five tools ([generate_content_strategy],
      [create_reference_image], [create_video_with_nova_reel],
      [create_voiceover_audio], [merge_video_and_audio]);
    - [enhanced_agent_config.py]: the driver [create_video_advertisement];
    - [streamlit_agent.py]: the driver [VideoAdAgent.create_video_ad];
    - [simple_video_ad.py] and [auto_video_ad.py]: the script variant of the
      same five steps.

    External services (Bedrock, Polly, S3, the Strands agent, moviepy, the
    JSON decoder, the clock, [uuid4], [tempfile]) are not part of the
    repository.  Their answers are read from a record [world]; the calls made
    to them are logged in the state, so that statements can speak about what
    was sent and how often.

    Python strings are modelled by [string]; a character is an 8-bit code,
    which is enough for every literal the sources compare against. *)

From Stdlib Require Import Ascii ZArith QArith Qround Lia.
From stdpp Require Import gmap strings list fin_maps pretty.
From Equations Require Import Equations.

Local Open Scope Z_scope.
Set Warnings "-clear-no-such-hyp".

(** stdpp freezes string concatenation under [simpl]; the proofs below
    compute with literals, so it is let loose again. *)
#[local] Arguments String.append !s1 s2 : simpl nomatch.

(** ** Python string primitives used by the sources *)

Module Py.

(** [len(s)] *)
Definition len (s : string) : Z := Z.of_nat (String.length s).

(** [s.find(c)] for a one-character needle: index of the first occurrence,
    [-1] when there is none. *)
Fixpoint find (c : ascii) (s : string) : Z :=
  match s with
  | EmptyString => -1
  | String a s' =>
      if Ascii.eqb a c then 0
      else let r := find c s' in if r <? 0 then -1 else r + 1
  end.

(** [s.rfind(c)]: index of the last occurrence, [-1] when there is none. *)
Fixpoint rfind (c : ascii) (s : string) : Z :=
  match s with
  | EmptyString => -1
  | String a s' =>
      let r := rfind c s' in
      if 0 <=? r then r + 1
      else if Ascii.eqb a c then 0 else -1
  end.

(** Index normalisation of a slice bound: a negative bound counts from the
    end, and every bound is clamped to [0 .. len]. *)
Definition clamp (i n : Z) : Z :=
  if i <? 0 then Z.max 0 (i + n) else Z.min i n.

(** [s[a:b]] *)
Definition slice (s : string) (a b : Z) : string :=
  let n := len s in
  let a' := clamp a n in
  let b' := clamp b n in
  String.substring (Z.to_nat a') (Z.to_nat (b' - a')) s.

(** [s[:n]] for a non-negative literal [n] *)
Definition take (n : nat) (s : string) : string := String.substring 0 n s.

(** [s.split(c)] for a one-character separator.  The result is never
    empty: a string without the separator is returned as its only
    element. *)
Fixpoint split (c : ascii) (s : string) : list string :=
  match s with
  | EmptyString => [EmptyString]
  | String a s' =>
      if Ascii.eqb a c then EmptyString :: split c s'
      else match split c s' with
           | [] => [String a EmptyString]
           | w :: ws => String a w :: ws
           end
  end.

(** [sep.join(l)] *)
Fixpoint join (sep : string) (l : list string) : string :=
  match l with
  | [] => EmptyString
  | [w] => w
  | w :: ws => w +:+ sep +:+ join sep ws
  end.

(** [s.startswith(p)] *)
Fixpoint startswith (s p : string) : bool :=
  match p, s with
  | EmptyString, _ => true
  | String _ _, EmptyString => false
  | String b p', String a s' => Ascii.eqb a b && startswith s' p'
  end.

(** [s.endswith(p)] *)
Definition endswith (s p : string) : bool :=
  let n := String.length s in
  let m := String.length p in
  (m <=? n)%nat && String.eqb (String.substring (n - m) m s) p.

(** [c in s] for a one-character [c] *)
Fixpoint contains_char (c : ascii) (s : string) : bool :=
  match s with
  | EmptyString => false
  | String a s' => Ascii.eqb a c || contains_char c s'
  end.

(** [p in s] for strings: [p] occurs as a substring of [s]. *)
Fixpoint contains (s p : string) : bool :=
  startswith s p ||
  match s with
  | EmptyString => false
  | String _ s' => contains s' p
  end.

(** [l[i:]] on a list *)
Definition list_from {A} (i : nat) (l : list A) : list A := drop i l.

End Py.

(** ** Exceptions

  Every exception the sources raise or catch is an [Exception] carrying a
  message; [str(e)] is that message.  [Raise msg] is a raised exception,
  [Ok v] a normal return. *)

Inductive result (A : Type) : Type :=
| Ok (v : A)
| Raise (msg : string).
Arguments Ok {A} v.
Arguments Raise {A} msg.

Definition is_ok {A} (r : result A) : bool :=
  match r with Ok _ => true | Raise _ => false end.

(** ** Storage locators

  A locator is the string [f"s3://{bucket}/{key}"]; every consumer takes it
  apart with [split('/')]. *)

Module Locator.

(** [f"s3://{bucket}/{key}"] (enhanced_tools.py:171, 277, 337, 428) *)
Definition format (bucket key : string) : string :=
  "s3://" +:+ bucket +:+ "/" +:+ key.

(** [path.split('/')[2]]; indexing out of range raises [IndexError]. *)
Definition bucket_of (path : string) : result string :=
  match Py.split "/" path !! 2%nat with
  | Some b => Ok b
  | None => Raise "list index out of range"
  end.

(** ['/'.join(path.split('/')[3:])]; slicing never raises. *)
Definition key_of (path : string) : string :=
  Py.join "/" (Py.list_from 3 (Py.split "/" path)).

(** The pair of assignments found at every stage boundary
    (enhanced_tools.py:198-199, 363-364, 368-369; simple_video_ad.py:100-101). *)
Definition parse (path : string) : result (string * string) :=
  match bucket_of path with
  | Ok b => Ok (b, key_of path)
  | Raise m => Raise m
  end.

End Locator.

(** ** Prompt clipping

  [video_prompt[:512] if len(video_prompt) > 512 else video_prompt]
  (enhanced_tools.py:218, simple_video_ad.py:108). *)

Definition truncated_prompt (video_prompt : string) : string :=
  if 512 <? Py.len video_prompt then Py.take 512 video_prompt else video_prompt.

(** ** JSON values, as [json.loads] returns them *)

#[warnings="-register-all"]
Inductive json : Type :=
| JNull
| JBool (b : bool)
| JNum (n : Z)
| JStr (s : string)
| JArr (items : list json)
| JObj (fields : list (string * json)).

(** [d[key]] on a decoded object: the last binding of a repeated key wins,
    as in a Python [dict]. *)
Fixpoint dict_get (key : string) (fields : list (string * json)) : option json :=
  match fields with
  | [] => None
  | (k, v) :: rest =>
      match dict_get key rest with
      | Some v' => Some v'
      | None => if String.eqb k key then Some v else None
      end
  end.

(** Equality with a string, the only comparison [key in some_list] needs
    here. *)
Definition json_is_str (key : string) (v : json) : bool :=
  match v with JStr s => String.eqb s key | _ => false end.

(** [key in v] for a string [key]: key membership on an object, element
    membership on an array, substring test on a string; the other values
    are not iterable and the test raises [TypeError]. *)
Definition py_in (key : string) (v : json) : result bool :=
  match v with
  | JObj fields => Ok (bool_decide (is_Some (dict_get key fields)))
  | JArr items => Ok (existsb (json_is_str key) items)
  | JStr s => Ok (Py.contains s key)
  | JNull => Raise "argument of type 'NoneType' is not iterable"
  | JBool _ => Raise "argument of type 'bool' is not iterable"
  | JNum _ => Raise "argument of type 'int' is not iterable"
  end.

(** ** Requests and answers of the external services *)

(** The answer of [get_async_invoke]: the job status and, for a failed job,
    the service's message. *)
Record status_response : Type := {
  status : string;
  failureMessage : option string
}.

(** The [modelInput] of the video job (enhanced_tools.py:220-237). *)
Record video_payload : Type := {
  taskType : string;
  text : string;
  image_format : string;
  image_bytes : string;
  durationSeconds : Z;
  fps : Z;
  dimension : string;
  seed : Z
}.

(** What one run observes of the outside.  Answers that change from call to
    call ([uuid4], temporary names, the job status, the agent, the clock,
    the random seed) are indexed by the number of earlier calls of the same
    kind; the others are functions of the request. *)
Record world : Type := {
  s3_bucket : string;
  uuid4_hex : nat -> string;
  tmp_name : nat -> string -> string;
  now_stamp : nat -> string;
  randint : nat -> Z;
  json_loads : string -> result json;
  invoke_model : string -> string -> result string;
  render_placeholder : string -> result string;
  canvas_image : string -> Z -> result string;
  put_object : string -> string -> result unit;
  get_object : string -> string -> result string;
  b64encode : string -> string;
  start_async_invoke : video_payload -> string -> result string;
  get_async_invoke : nat -> string -> result status_response;
  list_objects_v2 : string -> string -> result (list string);
  synthesize_speech : string -> result string;
  open_video_clip : string -> result Q;
  open_audio_clip : string -> result Q;
  write_videofile : string -> result unit;
  unlink_denied : string -> bool;
  agent_init : result unit;
  agent : nat -> string -> result string
}.

(** The calls a run makes, in the order it makes them. *)
Inductive event : Type :=
| EvInvokeModel (model_id prompt : string)
| EvPutObject (bucket key content_type : string)
| EvGetObject (bucket key : string)
| EvStartAsyncInvoke (payload : video_payload) (output_s3_uri : string)
| EvGetAsyncInvoke (invocation_arn : string)
| EvListObjects (bucket prefix : string)
| EvSynthesizeSpeech (script : string)
| EvSleep (seconds : Z)
| EvWriteVideofile (path : string) (duration audio_duration : Q)
| EvAgent (prompt : string).

(** The state a run threads through: the log of calls, the temporary files
    present on the local disk, and how many answers of each indexed kind
    were consumed. *)
Record state : Type := {
  calls : list event;
  fs : gset string;
  uuids_drawn : nat;
  tmp_made : nat;
  polls_made : nat;
  agent_calls : nat;
  clock_reads : nat;
  rand_draws : nat
}.

Definition initial_state : state :=
  {| calls := []; fs := ∅; uuids_drawn := 0; tmp_made := 0; polls_made := 0;
     agent_calls := 0; clock_reads := 0; rand_draws := 0 |}.

Definition with_calls (f : list event -> list event) (s : state) : state :=
  {| calls := f (calls s); fs := fs s; uuids_drawn := uuids_drawn s;
     tmp_made := tmp_made s; polls_made := polls_made s;
     agent_calls := agent_calls s; clock_reads := clock_reads s;
     rand_draws := rand_draws s |}.

Definition with_fs (f : gset string -> gset string) (s : state) : state :=
  {| calls := calls s; fs := f (fs s); uuids_drawn := uuids_drawn s;
     tmp_made := tmp_made s; polls_made := polls_made s;
     agent_calls := agent_calls s; clock_reads := clock_reads s;
     rand_draws := rand_draws s |}.

Definition next_uuid (s : state) : state :=
  {| calls := calls s; fs := fs s; uuids_drawn := S (uuids_drawn s);
     tmp_made := tmp_made s; polls_made := polls_made s;
     agent_calls := agent_calls s; clock_reads := clock_reads s;
     rand_draws := rand_draws s |}.

Definition next_tmp (s : state) : state :=
  {| calls := calls s; fs := fs s; uuids_drawn := uuids_drawn s;
     tmp_made := S (tmp_made s); polls_made := polls_made s;
     agent_calls := agent_calls s; clock_reads := clock_reads s;
     rand_draws := rand_draws s |}.

Definition next_poll (s : state) : state :=
  {| calls := calls s; fs := fs s; uuids_drawn := uuids_drawn s;
     tmp_made := tmp_made s; polls_made := S (polls_made s);
     agent_calls := agent_calls s; clock_reads := clock_reads s;
     rand_draws := rand_draws s |}.

Definition next_agent (s : state) : state :=
  {| calls := calls s; fs := fs s; uuids_drawn := uuids_drawn s;
     tmp_made := tmp_made s; polls_made := polls_made s;
     agent_calls := S (agent_calls s); clock_reads := clock_reads s;
     rand_draws := rand_draws s |}.

Definition next_clock (s : state) : state :=
  {| calls := calls s; fs := fs s; uuids_drawn := uuids_drawn s;
     tmp_made := tmp_made s; polls_made := polls_made s;
     agent_calls := agent_calls s; clock_reads := S (clock_reads s);
     rand_draws := rand_draws s |}.

Definition next_rand (s : state) : state :=
  {| calls := calls s; fs := fs s; uuids_drawn := uuids_drawn s;
     tmp_made := tmp_made s; polls_made := polls_made s;
     agent_calls := agent_calls s; clock_reads := clock_reads s;
     rand_draws := S (rand_draws s) |}.

(** ** The monad of a run: state passing with exceptions

    A raised exception keeps the state reached so far: files created and
    calls made before the [raise] stay created and made. *)

Definition M (A : Type) : Type := state -> result A * state.

Definition ret {A} (v : A) : M A := fun s => (Ok v, s).

Definition raise {A} (msg : string) : M A := fun s => (Raise msg, s).

Definition bind {A B} (m : M A) (k : A -> M B) : M B :=
  fun s =>
    match m s with
    | (Ok v, s') => k v s'
    | (Raise msg, s') => (Raise msg, s')
    end.

(** [try: body except Exception as e: handler(str(e))] *)
Definition try_except {A} (body : M A) (handler : string -> M A) : M A :=
  fun s =>
    match body s with
    | (Ok v, s') => (Ok v, s')
    | (Raise msg, s') => handler msg s'
    end.

(** [try: body finally: cleanup]: the cleanup runs on both exits, and the
    exception of the body, if any, is raised again after it. *)
Definition try_finally {A} (body : M A) (cleanup : M unit) : M A :=
  fun s =>
    match body s with
    | (r, s') =>
        match cleanup s' with
        | (Ok _, s'') => (r, s'')
        | (Raise msg, s'') => (Raise msg, s'')
        end
    end.

(** An external call: log it, then return the world's answer. *)
Definition call {A} (e : event) (answer : result A) : M A :=
  fun s => (answer, with_calls (fun l => l ++ [e]) s).

Definition lift {A} (r : result A) : M A := fun s => (r, s).

Declare Scope run_scope.
Delimit Scope run_scope with run.
Notation "x <- m ;; k" := (bind m (fun x => k))
  (at level 100, m at next level, right associativity) : run_scope.
Notation "m ;;; k" := (bind m (fun _ => k))
  (at level 100, right associativity) : run_scope.
Local Open Scope run_scope.

(** ** Primitive steps of a run *)

(** [uuid.uuid4().hex] *)
Definition uuid4 (w : world) : M string :=
  fun s => (Ok (uuid4_hex w (uuids_drawn s)), next_uuid s).

(** [tempfile.NamedTemporaryFile(suffix=..., delete=False)]: the file is
    created on disk at once and is not removed when it is closed. *)
Definition named_temporary_file (w : world) (suffix : string) : M string :=
  fun s =>
    let name := tmp_name w (tmp_made s) suffix in
    (Ok name, with_fs (fun d => {[name]} ∪ d) (next_tmp s)).

(** [os.unlink(path)] *)
Definition os_unlink (w : world) (path : string) : M unit :=
  fun s =>
    if bool_decide (path ∈ fs s) then
      if unlink_denied w path
      then (Raise "Permission denied", s)
      else (Ok tt, with_fs (fun d => d ∖ {[path]}) s)
    else (Raise "No such file or directory", s).

(** [time.sleep(seconds)] *)
Definition sleep (seconds : Z) : M unit := call (EvSleep seconds) (Ok tt).

(** The cleanup loop
    [for temp_file in files: try: os.unlink(temp_file) except: pass]
    (enhanced_tools.py:422-426). *)
Fixpoint unlink_all (w : world) (files : list string) : M unit :=
  match files with
  | [] => ret tt
  | f :: rest =>
      try_except (os_unlink w f) (fun _ => ret tt) ;;;
      unlink_all w rest
  end.

(** ** Clips of the muxing library

    A clip is described by how it was obtained; only durations matter here.
    [subclip(t0, t1)] lasts [t1 - t0], a concatenation lasts the sum of its
    parts. *)

#[warnings="-register-all"]
Inductive audio : Type :=
| AudioSource (d : Q)
| AudioSubclip (a : audio) (t0 t1 : Q)
| AudioConcat (parts : list audio).

Fixpoint audio_duration (a : audio) : Q :=
  match a with
  | AudioSource d => d
  | AudioSubclip _ t0 t1 => (t1 - t0)%Q
  | AudioConcat parts => fold_right (fun p acc => (audio_duration p + acc)%Q) 0%Q parts
  end.

(** A video clip: its own duration and the audio track set on it. *)
Record video : Type := {
  video_duration : Q;
  video_audio : option audio
}.

Definition set_audio (v : video) (a : audio) : video :=
  {| video_duration := video_duration v; video_audio := Some a |}.

Definition video_subclip (v : video) (t0 t1 : Q) : video :=
  {| video_duration := (t1 - t0)%Q; video_audio := video_audio v |}.

(** [int(x)] on a number: truncation towards zero. *)
Definition py_int (x : Q) : Z :=
  if Qle_bool 0%Q x then Qfloor x else - Qfloor (- x)%Q.

(** The duration policy of [merge_video_and_audio]
    (enhanced_tools.py:379-387).  Dividing by a zero duration raises
    [ZeroDivisionError]; concatenating an empty list of clips raises inside
    the library. *)
Definition adjust_audio (v : video) (audio_clip : audio) : result audio :=
  let V := video_duration v in
  let A := audio_duration audio_clip in
  if Qlt_le_dec V A then
    Ok (AudioSubclip audio_clip 0%Q V)
  else if Qlt_le_dec A V then
    if Qeq_bool A 0%Q then Raise "float division by zero"
    else
      let loops_needed := py_int (V / A)%Q + 1 in
      if loops_needed <=? 0 then Raise "max() arg is an empty sequence"
      else Ok (AudioSubclip
                 (AudioConcat (replicate (Z.to_nat loops_needed) audio_clip))
                 0%Q V)
  else Ok audio_clip.

(** The trimming of the script's merge step (auto_video_ad.py:143-147):
    both tracks are cut to the shorter of the two. *)
Definition Qmin (a b : Q) : Q := if Qlt_le_dec b a then b else a.

Definition trim_to_shorter (v : video) (audio_clip : audio) : video :=
  let min_duration := Qmin (video_duration v) (audio_duration audio_clip) in
  let video_trimmed := video_subclip v 0%Q min_duration in
  let audio_trimmed := AudioSubclip audio_clip 0%Q min_duration in
  set_audio video_trimmed audio_trimmed.

(** [clip.write_videofile(path, ...)]: the call is logged with the duration
    of the clip written and of its audio track. *)
Definition write_video (w : world) (v : video) (path : string) : M unit :=
  call (EvWriteVideofile path (video_duration v)
          (match video_audio v with Some a => audio_duration a | None => 0%Q end))
       (write_videofile w path).

(** ** The tools of enhanced_tools.py *)

Definition required_keys : list string :=
  ["image_prompt"; "video_prompt"; "audio_script"].

(** [all(key in strategy for key in required_keys)]: the keys are tested in
    order, and the test stops at the first one that is missing. *)
Fixpoint all_keys_in (keys : list string) (strategy : json) : result bool :=
  match keys with
  | [] => Ok true
  | k :: rest =>
      match py_in k strategy with
      | Ok true => all_keys_in rest strategy
      | Ok false => Ok false
      | Raise m => Raise m
      end
  end.

(** The fallback dictionary (enhanced_tools.py:119-123). *)
Definition fallback_strategy (ad_description : string) : json :=
  JObj [ ("image_prompt",
          JStr ("Professional commercial photograph of " +:+ ad_description +:+
                ", high quality, 1280x720, cinematic lighting, marketing style"));
         ("video_prompt",
          JStr ("Create a 6-second commercial video about " +:+ ad_description +:+
                ", professional quality, smooth camera movement, engaging visuals"));
         ("audio_script",
          JStr ("Discover the amazing " +:+ ad_description +:+
                ". Experience the difference today!")) ].

(** The instruction sent to the text model (enhanced_tools.py:76-85). *)
Definition strategy_prompt (ad_description : string) : string :=
  "
        Create a comprehensive content strategy for a video advertisement about: "
  +:+ ad_description +:+ "

        Generate:
        1. A detailed image prompt for creating a reference image (1280x720, professional, high-quality, commercial style)
        2. A detailed video prompt for creating a 6-second engaging commercial-style video with camera movements
        3. An audio script for voiceover (15-20 words, compelling and memorable)

        Return ONLY a valid JSON object with keys: image_prompt, video_prompt, audio_script
        ".

(** The body of the [try] of [generate_content_strategy]
    (enhanced_tools.py:76-114).  [invoke_model] stands for the request and
    the extraction of the answer's text (lines 87-99). *)
Definition strategy_body (w : world) (ad_description : string) : M json :=
  content <- call (EvInvokeModel "us.amazon.nova-lite-v1:0" (strategy_prompt ad_description))
                  (invoke_model w "us.amazon.nova-lite-v1:0" (strategy_prompt ad_description)) ;;
  let start_idx := Py.find "{" content in
  let end_idx := Py.rfind "}" content + 1 in
  let json_str := Py.slice content start_idx end_idx in
  strategy <- lift (json_loads w json_str) ;;
  ok <- lift (all_keys_in required_keys strategy) ;;
  if ok : bool then ret strategy
  else raise "Missing required strategy components".

(** [generate_content_strategy] (enhanced_tools.py:65-123) *)
Definition generate_content_strategy (w : world) (ad_description : string) : M json :=
  try_except (strategy_body w ad_description)
             (fun _ => ret (fallback_strategy ad_description)).

(** [create_reference_image] (enhanced_tools.py:126-177) *)
Definition create_reference_image (w : world) (image_prompt : string) : M string :=
  try_except
    (u <- uuid4 w ;;
     let image_key := "generated_images/ref_image_" +:+ u +:+ ".png" in
     _ <- lift (render_placeholder w image_prompt) ;;
     call (EvPutObject (s3_bucket w) image_key "image/png")
          (put_object w (s3_bucket w) image_key) ;;;
     ret (Locator.format (s3_bucket w) image_key))
    (fun e => raise ("Failed to create reference image: " +:+ e)).

Definition max_wait_time : Z := 600.
Definition poll_interval : Z := 15.

(** The loop variant: seconds left before the ceiling. *)
Definition remaining (elapsed_time : Z) : nat :=
  Z.to_nat (max_wait_time - elapsed_time).

(** The first listed key that ends in [.mp4]
    (enhanced_tools.py:275-279). *)
Definition first_mp4 (keys : list string) : option string :=
  List.find (fun k => Py.endswith k ".mp4") keys.

(** The status query of one iteration (enhanced_tools.py:261-265). *)
Definition poll_status (w : world) (invocation_arn : string) : M status_response :=
  fun s =>
    (get_async_invoke w (polls_made s) invocation_arn,
     with_calls (fun l => l ++ [EvGetAsyncInvoke invocation_arn]) (next_poll s)).

(** What the loop does once the job is reported complete
    (enhanced_tools.py:268-281). *)
Definition locate_video (w : world) (video_key : string) : M string :=
  keys <- call (EvListObjects (s3_bucket w) video_key)
               (list_objects_v2 w (s3_bucket w) video_key) ;;
  match first_mp4 keys with
  | Some k => ret (Locator.format (s3_bucket w) k)
  | None => raise "Video file not found in S3 after completion"
  end.

(** The poll loop (enhanced_tools.py:258-296).  It ends because every
    iteration that goes round again adds [poll_interval] to
    [elapsed_time]. *)
Equations poll_loop (w : world) (invocation_arn video_key : string)
    (elapsed_time : Z) : M string by wf (remaining elapsed_time) lt :=
  poll_loop w invocation_arn video_key elapsed_time
    with Z_lt_dec elapsed_time max_wait_time => {
    | left _ =>
        status_response <- poll_status w invocation_arn ;;
        if String.eqb (status status_response) "Completed" then
          locate_video w video_key
        else if String.eqb (status status_response) "Failed" then
          raise ("Video generation failed: " +:+
                 default "Unknown error" (failureMessage status_response))
        else if String.eqb (status status_response) "InProgress"
                || String.eqb (status status_response) "Submitted" then
          sleep poll_interval ;;;
          poll_loop w invocation_arn video_key (elapsed_time + poll_interval)
        else
          sleep poll_interval ;;;
          poll_loop w invocation_arn video_key (elapsed_time + poll_interval)
    | right _ =>
        raise "Video generation timed out after 600 seconds" }.
Next Obligation. unfold remaining, max_wait_time, poll_interval in *. lia. Qed.
Next Obligation. unfold remaining, max_wait_time, poll_interval in *. lia. Qed.

(** The job description (enhanced_tools.py:220-237). *)
Definition nova_reel_payload (truncated image_base64 : string) : video_payload :=
  {| taskType := "TEXT_VIDEO"; text := truncated; image_format := "png";
     image_bytes := image_base64; durationSeconds := 6; fps := 24;
     dimension := "1280x720"; seed := 0 |}.

(** [create_video_with_nova_reel] (enhanced_tools.py:180-304) *)
Definition create_video_with_nova_reel (w : world)
    (video_prompt reference_image_s3 : string) : M string :=
  try_except
    (_ <- uuid4 w ;;
     bucket_name <- lift (Locator.bucket_of reference_image_s3) ;;
     let image_key := Locator.key_of reference_image_s3 in
     tmp_file <- named_temporary_file w ".png" ;;
     image <- call (EvGetObject bucket_name image_key)
                   (get_object w bucket_name image_key) ;;
     let image_base64 := b64encode w image in
     os_unlink w tmp_file ;;;
     u <- uuid4 w ;;
     let video_key := "generated_videos/video_" +:+ u in
     let output_s3_uri := "s3://" +:+ s3_bucket w +:+ "/" +:+ video_key +:+ "/" in
     let payload := nova_reel_payload (truncated_prompt video_prompt) image_base64 in
     invocation_arn <- call (EvStartAsyncInvoke payload output_s3_uri)
                            (start_async_invoke w payload output_s3_uri) ;;
     poll_loop w invocation_arn video_key 0)
    (fun e => raise ("Failed to create video: " +:+ e)).

(** [create_voiceover_audio] (enhanced_tools.py:307-343) *)
Definition create_voiceover_audio (w : world) (audio_script : string) : M string :=
  try_except
    (u <- uuid4 w ;;
     let audio_key := "generated_audio/voiceover_" +:+ u +:+ ".mp3" in
     _ <- call (EvSynthesizeSpeech audio_script) (synthesize_speech w audio_script) ;;
     call (EvPutObject (s3_bucket w) audio_key "audio/mpeg")
          (put_object w (s3_bucket w) audio_key) ;;;
     ret (Locator.format (s3_bucket w) audio_key))
    (fun e => raise ("Failed to create voiceover: " +:+ e)).

(** The body of the [try] of [merge_video_and_audio]
    (enhanced_tools.py:358-430). *)
Definition merge_body (w : world) (video_s3_path audio_s3_path : string) : M string :=
  video_file <- named_temporary_file w ".mp4" ;;
  audio_file <- named_temporary_file w ".mp3" ;;
  video_bucket <- lift (Locator.bucket_of video_s3_path) ;;
  let video_key := Locator.key_of video_s3_path in
  _ <- call (EvGetObject video_bucket video_key) (get_object w video_bucket video_key) ;;
  audio_bucket <- lift (Locator.bucket_of audio_s3_path) ;;
  let audio_key := Locator.key_of audio_s3_path in
  _ <- call (EvGetObject audio_bucket audio_key) (get_object w audio_bucket audio_key) ;;
  V <- lift (open_video_clip w video_file) ;;
  A <- lift (open_audio_clip w audio_file) ;;
  let video_clip := {| video_duration := V; video_audio := None |} in
  audio_clip <- lift (adjust_audio video_clip (AudioSource A)) ;;
  let final_video := set_audio video_clip audio_clip in
  u <- uuid4 w ;;
  let final_video_key := "final_videos/ad_" +:+ u +:+ ".mp4" in
  final_file <- named_temporary_file w ".mp4" ;;
  write_video w final_video final_file ;;;
  call (EvPutObject (s3_bucket w) final_video_key "video/mp4")
       (put_object w (s3_bucket w) final_video_key) ;;;
  unlink_all w [video_file; audio_file; final_file] ;;;
  ret (Locator.format (s3_bucket w) final_video_key).

(** [merge_video_and_audio] (enhanced_tools.py:346-434) *)
Definition merge_video_and_audio (w : world)
    (video_s3_path audio_s3_path : string) : M string :=
  try_except (merge_body w video_s3_path audio_s3_path)
             (fun e => raise ("Failed to merge video and audio: " +:+ e)).

(** ** The script variant: simple_video_ad.py and auto_video_ad.py *)

Module Script.

(** [datetime.now().strftime('%Y%m%d_%H%M%S')]: the clock, read to the
    second. *)
Definition timestamp (w : world) : M string :=
  fun s => (Ok (now_stamp w (clock_reads s)), next_clock s).

(** [random.randint(0, 2147483648)] *)
Definition random_seed (w : world) : M Z :=
  fun s => (Ok (randint w (rand_draws s)), next_rand s).

(** [create_image_and_save_s3] (simple_video_ad.py:49-91).  Every exception
    is turned into a returned message. *)
Definition create_image_and_save_s3 (w : world) (image_prompt : string) : M string :=
  try_except
    (seed <- random_seed w ;;
     _ <- call (EvInvokeModel "amazon.nova-canvas-v1:0" image_prompt)
               (canvas_image w image_prompt seed) ;;
     stamp <- timestamp w ;;
     let s3_key := "images/ad_image_" +:+ stamp +:+ ".png" in
     call (EvPutObject (s3_bucket w) s3_key "image/png")
          (put_object w (s3_bucket w) s3_key) ;;;
     ret (Locator.format (s3_bucket w) s3_key))
    (fun e => ret ("Error creating image: " +:+ e)).

(** [arn.split('/')[-1]] *)
Definition last_piece (path : string) : string :=
  List.last (Py.split "/" path) "".

(** [create_video_with_image] (simple_video_ad.py:93-136) *)
Definition create_video_with_image (w : world)
    (video_prompt image_s3_path : string) : M string :=
  try_except
    (bucket <- lift (Locator.bucket_of image_s3_path) ;;
     let key := Locator.key_of image_s3_path in
     image_data <- call (EvGetObject bucket key) (get_object w bucket key) ;;
     let image_base64 := b64encode w image_data in
     let truncated := truncated_prompt video_prompt in
     seed <- random_seed w ;;
     let model_input :=
       {| taskType := "TEXT_VIDEO"; text := truncated; image_format := "png";
          image_bytes := image_base64; durationSeconds := 6; fps := 24;
          dimension := "1280x720"; seed := seed |} in
     let output := "s3://" +:+ s3_bucket w +:+ "/output/" in
     invocation_arn <- call (EvStartAsyncInvoke model_input output)
                            (start_async_invoke w model_input output) ;;
     let s3_prefix := last_piece invocation_arn in
     ret ("Video generation started. ARN: " +:+ invocation_arn +:+
          ". Video will be at: s3://" +:+ s3_bucket w +:+ "/output/" +:+
          s3_prefix +:+ "/output.mp4"))
    (fun e => ret ("Error creating video: " +:+ e)).

(** How the wait loop of auto_video_ad.py is left. *)
Inductive wait_exit : Type :=
| WaitCompleted
| WaitStopped
| WaitPollError (msg : string).

(** The wait loop (auto_video_ad.py:73-89).  It has no ceiling of its own,
    so the model is bounded by [fuel]; [None] means the bound was reached
    with the job still running. *)
Fixpoint wait_for_video (fuel : nat) (w : world) (video_arn : string)
    : M (option wait_exit) :=
  match fuel with
  | O => ret None
  | S fuel' =>
      fun s =>
        match poll_status w video_arn s with
        | (Ok response, s') =>
            if String.eqb (status response) "Completed" then (Ok (Some WaitCompleted), s')
            else if String.eqb (status response) "Failed" then (Ok (Some WaitStopped), s')
            else (sleep 10 ;;; wait_for_video fuel' w video_arn) s'
        | (Raise msg, s') => (Ok (Some (WaitPollError msg)), s')
        end
  end.

(** The audio step (auto_video_ad.py:95-116): the key and the locator of
    the stored voiceover. *)
Definition create_audio (w : world) (audio_script : string) : M (string * string) :=
  _ <- call (EvSynthesizeSpeech audio_script) (synthesize_speech w audio_script) ;;
  stamp <- timestamp w ;;
  let audio_s3_key := "audio/ad_audio_" +:+ stamp +:+ ".mp3" in
  call (EvPutObject (s3_bucket w) audio_s3_key "audio/mpeg")
       (put_object w (s3_bucket w) audio_s3_key) ;;;
  ret (audio_s3_key, Locator.format (s3_bucket w) audio_s3_key).

(** [s3_client.download_file(bucket, key, filename)]: the local file exists
    once the download has succeeded. *)
Definition download_file (w : world) (bucket key filename : string) : M unit :=
  fun s =>
    let s' := with_calls (fun l => l ++ [EvGetObject bucket key]) s in
    match get_object w bucket key with
    | Ok _ => (Ok tt, with_fs (fun d => {[filename]} ∪ d) s')
    | Raise msg => (Raise msg, s')
    end.

(** [clip.write_videofile(filename)]: the output file is on disk once the
    encoder has started, whether it finishes or not. *)
Definition write_videofile_to (w : world) (v : video) (filename : string) : M unit :=
  fun s =>
    (write_videofile w filename,
     with_fs (fun d => {[filename]} ∪ d)
       (with_calls
          (fun l => l ++ [EvWriteVideofile filename (video_duration v)
                            (match video_audio v with
                             | Some a => audio_duration a
                             | None => 0%Q
                             end)]) s)).

(** [if os.path.exists(f): os.remove(f)] *)
Definition remove_if_exists (w : world) (filename : string) : M unit :=
  fun s =>
    if bool_decide (filename ∈ fs s) then os_unlink w filename s else (Ok tt, s).

(** The cleanup of the [finally] block (auto_video_ad.py:170-175). *)
Fixpoint cleanup (w : world) (files : list string) : M unit :=
  match files with
  | [] => ret tt
  | f :: rest =>
      try_except (remove_if_exists w f) (fun _ => ret tt) ;;;
      cleanup w rest
  end.

(** The names of the three local files, from the identifier drawn. *)
Definition video_file_of (unique_id : string) : string :=
  "temp_video_" +:+ unique_id +:+ ".mp4".
Definition audio_file_of (unique_id : string) : string :=
  "temp_audio_" +:+ unique_id +:+ ".mp3".
Definition output_file_of (unique_id : string) : string :=
  "final_video_" +:+ unique_id +:+ ".mp4".

(** The body of the [try] of the merge step (auto_video_ad.py:136-165). *)
Definition merge_try (w : world) (s3_prefix audio_s3_key unique_id : string) : M string :=
  download_file w (s3_bucket w) ("output/" +:+ s3_prefix +:+ "/output.mp4")
                (video_file_of unique_id) ;;;
  download_file w (s3_bucket w) audio_s3_key (audio_file_of unique_id) ;;;
  V <- lift (open_video_clip w (video_file_of unique_id)) ;;
  A <- lift (open_audio_clip w (audio_file_of unique_id)) ;;
  let video_clip := {| video_duration := V; video_audio := None |} in
  let final_clip := trim_to_shorter video_clip (AudioSource A) in
  write_videofile_to w final_clip (output_file_of unique_id) ;;;
  final_timestamp <- timestamp w ;;
  let final_s3_key := "final/ad_final_" +:+ final_timestamp +:+ ".mp4" in
  call (EvPutObject (s3_bucket w) final_s3_key "video/mp4")
       (put_object w (s3_bucket w) final_s3_key) ;;;
  ret final_s3_key.

(** The merge step (auto_video_ad.py:124-177). *)
Definition merge_step (w : world) (video_arn audio_s3_key : string) : M string :=
  let s3_prefix := last_piece video_arn in
  u <- uuid4 w ;;
  let unique_id := Py.take 8 u in
  final_s3_key <-
    try_finally (merge_try w s3_prefix audio_s3_key unique_id)
                (cleanup w [video_file_of unique_id; audio_file_of unique_id;
                            output_file_of unique_id]) ;;
  ret (Locator.format (s3_bucket w) final_s3_key).

End Script.

(** ** The drivers *)

(** [strategy_data[key]] *)
Definition subscript (v : json) (key : string) : result json :=
  match v with
  | JObj fields =>
      match dict_get key fields with
      | Some x => Ok x
      | None => Raise ("'" +:+ key +:+ "'")
      end
  | JArr _ => Raise "list indices must be integers or slices, not str"
  | JStr _ => Raise "string indices must be integers, not 'str'"
  | JNull => Raise "'NoneType' object is not subscriptable"
  | JBool _ => Raise "'bool' object is not subscriptable"
  | JNum _ => Raise "'int' object is not subscriptable"
  end.

(** A field of the strategy, read as the string the data model says it is.
    The sources hand a field that is not a string on to the tool, which
    raises on it; the model raises where the field is read. *)
Definition field (strategy_data : json) (key : string) : result string :=
  match subscript strategy_data key with
  | Ok (JStr s) => Ok s
  | Ok _ => Raise ("'" +:+ key +:+ "' is not a string")
  | Raise e => Raise e
  end.

(** One call of the Strands agent: [agent(prompt)], and [str(...)] of what
    it answers. *)
Definition agent_call (w : world) (prompt : string) : M string :=
  fun s =>
    (agent w (agent_calls s) prompt,
     with_calls (fun l => l ++ [EvAgent prompt]) (next_agent s)).

(** The five tools a driver imports. *)
Record toolset : Type := {
  tool_strategy : string -> M json;
  tool_image : string -> M string;
  tool_video : string -> string -> M string;
  tool_audio : string -> M string;
  tool_merge : string -> string -> M string
}.



(** The four steps after the strategy, as functions of what the earlier
    steps produced. *)
Record pipeline_steps : Type := {
  run_image : json -> M string;
  run_video : json -> string -> M string;
  run_audio : json -> M string;
  run_merge : string -> string -> M string
}.




Module Config.

(** The requests made to the agent (enhanced_agent_config.py:57-60, 72-75,
    86-90, 104-107, 118-121). *)
Definition strategy_request (ad_description : string) : string :=
  "
        Create a content strategy for a video advertisement about: " +:+ ad_description +:+ "
        Use the generate_content_strategy tool to create detailed prompts.
        ".

Definition image_request (image_prompt : string) : string :=
  "
        Create a reference image using the image prompt: " +:+ image_prompt +:+ "
        Use the create_reference_image tool.
        ".

Definition video_request (video_prompt image_s3_path : string) : string :=
  "
        Create a video using the video prompt: " +:+ video_prompt +:+ "
        Use the reference image at: " +:+ image_s3_path +:+ "
        Use the create_video_with_nova_reel tool.
        ".

Definition audio_request (audio_script : string) : string :=
  "
        Create voiceover audio using the script: " +:+ audio_script +:+ "
        Use the create_voiceover_audio tool.
        ".

Definition merge_request (video_s3_path audio_s3_path : string) : string :=
  "
        Merge the video at " +:+ video_s3_path +:+ " with the audio at " +:+ audio_s3_path +:+ "
        Use the merge_video_and_audio tool.
        ".




(** The five steps as the source numbers them, each with the request to the
    agent that precedes the tool call. *)
Definition step_strategy (T : toolset) (w : world) (ad_description : string) : M json :=
  agent_call w (strategy_request ad_description) ;;;
  tool_strategy T ad_description.

Definition step_image (T : toolset) (w : world) (strategy_data : json) : M string :=
  image_prompt <- lift (field strategy_data "image_prompt") ;;
  agent_call w (image_request image_prompt) ;;;
  tool_image T image_prompt.

Definition step_video (T : toolset) (w : world) (strategy_data : json)
    (image_s3_path : string) : M string :=
  video_prompt <- lift (field strategy_data "video_prompt") ;;
  agent_call w (video_request video_prompt image_s3_path) ;;;
  tool_video T video_prompt image_s3_path.

Definition step_audio (T : toolset) (w : world) (strategy_data : json) : M string :=
  audio_script <- lift (field strategy_data "audio_script") ;;
  agent_call w (audio_request audio_script) ;;;
  tool_audio T audio_script.

Definition step_merge (T : toolset) (w : world) (video_s3_path audio_s3_path : string)
    : M string :=
  agent_call w (merge_request video_s3_path audio_s3_path) ;;;
  tool_merge T video_s3_path audio_s3_path.

Definition steps (T : toolset) (w : world) : pipeline_steps :=
  {| run_image := step_image T w; run_video := step_video T w;
     run_audio := step_audio T w; run_merge := step_merge T w |}.


End Config.

(** ** The agent front-end: streamlit_agent.py *)

Module AgentApp.

Definition quote : ascii := "034".
Definition newline : ascii := "010".

(** Whitespace as the pattern [\s] of [re] sees it. *)
Definition is_space (c : ascii) : bool :=
  let n := nat_of_ascii c in
  ((9 <=? n) && (n <=? 13) || (28 <=? n) && (n <=? 32) || (n =? 133) || (n =? 160))%nat.

(** [re.sub] for the two patterns of lines 133-134: a double quote,
    whitespace, a double quote; the first pattern also wants a newline in
    the whitespace.  [pending] holds the whitespace read since a quote that
    may open a match. *)
Fixpoint sub_quotes (need_newline : bool) (replacement : string)
    (pending : option string) (s : string) : string :=
  match pending, s with
  | None, EmptyString => ""
  | None, String c s' =>
      if Ascii.eqb c quote then sub_quotes need_newline replacement (Some "") s'
      else String c (sub_quotes need_newline replacement None s')
  | Some ws, EmptyString => String quote ws
  | Some ws, String c s' =>
      if is_space c then
        sub_quotes need_newline replacement (Some (ws +:+ String c "")) s'
      else if Ascii.eqb c quote then
        if negb need_newline || Py.contains_char newline ws
        then replacement +:+ sub_quotes need_newline replacement None s'
        else String quote ws +:+ sub_quotes need_newline replacement (Some "") s'
      else String quote ws +:+ String c (sub_quotes need_newline replacement None s')
  end.

(** The two substitutions of lines 133-134, in their order: a comma and a
    newline between two quotes separated by whitespace with a newline, then
    a comma between two quotes separated by whitespace only. *)
Definition add_missing_commas (json_str : string) : string :=
  let with_newline := String quote ("," +:+ String newline (String quote "")) in
  let plain := String quote ("," +:+ String quote "") in
  sub_quotes false plain None (sub_quotes true with_newline None json_str).

(** [_parse_strategy_from_response] (streamlit_agent.py:117-155) *)
Definition parse_strategy_from_response (w : world)
    (response_text ad_description : string) : json :=
  let start := Py.find "{" response_text in
  let end_ := Py.rfind "}" response_text + 1 in
  if negb (start =? -1) && (start <? end_) then
    let json_str := add_missing_commas (Py.slice response_text start end_) in
    match json_loads w json_str with
    | Ok strategy =>
        match all_keys_in required_keys strategy with
        | Ok true => strategy
        | _ => fallback_strategy ad_description
        end
    | Raise _ => fallback_strategy ad_description
    end
  else fallback_strategy ad_description.

(** A character the class of the pattern of line 163 accepts: anything but
    whitespace, a double quote, a closing parenthesis, a closing bracket and
    a backquote. *)
Definition path_char (c : ascii) : bool :=
  negb (is_space c || Ascii.eqb c quote || Ascii.eqb c ")" || Ascii.eqb c "]"
        || Ascii.eqb c "`").

Fixpoint take_while (p : ascii -> bool) (s : string) : string :=
  match s with
  | EmptyString => ""
  | String c s' => if p c then String c (take_while p s') else ""
  end.

Fixpoint drop_while (p : ascii -> bool) (s : string) : string :=
  match s with
  | EmptyString => ""
  | String c s' => if p c then drop_while p s' else s
  end.

(** The rest of [s] after the prefix [p], when [s] starts with [p]. *)
Fixpoint after_prefix (p s : string) : option string :=
  match p, s with
  | EmptyString, _ => Some s
  | String _ _, EmptyString => None
  | String b p', String a s' => if Ascii.eqb a b then after_prefix p' s' else None
  end.

(** [re.search] for the pattern of line 163, [s3://] followed by one or
    more accepted characters: the leftmost match, as long as it can be. *)
Fixpoint search_s3 (text : string) : option string :=
  match text with
  | EmptyString => None
  | String _ rest =>
      match after_prefix "s3://" text with
      | Some tail =>
          match take_while path_char tail with
          | EmptyString => search_s3 rest
          | body => Some ("s3://" +:+ body)
          end
      | None => search_s3 rest
      end
  end.

(** [s.strip(chars)] *)
Definition strip (p : ascii -> bool) (s : string) : string :=
  String.rev (drop_while p (String.rev (drop_while p s))).

Definition strip_char (c : ascii) : bool :=
  Ascii.eqb c "`" || Ascii.eqb c quote || Ascii.eqb c "'" || Ascii.eqb c " ".

(** [_parse_s3_path_from_response] (streamlit_agent.py:157-170) *)
Definition parse_s3_path_from_response (response_text : string) : option string :=
  match search_s3 response_text with
  | Some m => Some (strip strip_char m)
  | None => None
  end.

(** [path = parse(response)] followed by [if not path: path = tool(...)]:
    the tool is called only when the answer of the agent holds no path. *)
Definition path_or_call (response_text : string) (direct : M string) : M string :=
  match parse_s3_path_from_response response_text with
  | Some p => if String.eqb p "" then direct else ret p
  | None => direct
  end.

(** The requests made to the agent (streamlit_agent.py:38-44, 57-60, 70-74,
    84-87, 97-100). *)
Definition strategy_request (ad_description : string) : string :=
  "
        Create a content strategy for: " +:+ ad_description +:+ "
        
        Use the generate_content_strategy tool with the description: " +:+ ad_description +:+ "
        
        The tool will return a JSON with image_prompt, video_prompt, and audio_script.
        ".

Definition image_request (image_prompt : string) : string :=
  "
        Create a reference image using this prompt: " +:+ image_prompt +:+ "
        Use the create_reference_image tool and return the S3 path.
        ".

Definition video_request (video_prompt image_s3_path : string) : string :=
  "
        Create a video using this prompt: " +:+ video_prompt +:+ "
        Use the reference image at: " +:+ image_s3_path +:+ "
        Use the create_video_with_nova_reel tool and return the S3 path.
        ".

Definition audio_request (audio_script : string) : string :=
  "
        Create voiceover audio with this script: " +:+ audio_script +:+ "
        Use the create_voiceover_audio tool and return the S3 path.
        ".

Definition merge_request (video_s3_path audio_s3_path : string) : string :=
  "
        Merge the video at " +:+ video_s3_path +:+ " with audio at " +:+ audio_s3_path +:+ "
        Use the merge_video_and_audio tool and return the final S3 path.
        ".

(** The dictionary [create_video_ad] returns (streamlit_agent.py:109-115). *)
Record ad_result : Type := {
  strategy : json;
  image_path : string;
  video_path : string;
  audio_path : string;
  final_path : string
}.

(** The five steps of [create_video_ad] (streamlit_agent.py:37-107). *)
Definition step_strategy (w : world) (ad_description : string) : M json :=
  strategy_response <- agent_call w (strategy_request ad_description) ;;
  ret (parse_strategy_from_response w strategy_response ad_description).

Definition step_image (w : world) (strategy_data : json) : M string :=
  image_prompt <- lift (field strategy_data "image_prompt") ;;
  image_response <- agent_call w (image_request image_prompt) ;;
  path_or_call image_response (create_reference_image w image_prompt).

Definition step_video (w : world) (strategy_data : json) (image_s3_path : string)
    : M string :=
  video_prompt <- lift (field strategy_data "video_prompt") ;;
  video_response <- agent_call w (video_request video_prompt image_s3_path) ;;
  path_or_call video_response (create_video_with_nova_reel w video_prompt image_s3_path).

Definition step_audio (w : world) (strategy_data : json) : M string :=
  audio_script <- lift (field strategy_data "audio_script") ;;
  audio_response <- agent_call w (audio_request audio_script) ;;
  path_or_call audio_response (create_voiceover_audio w audio_script).

Definition step_merge (w : world) (video_s3_path audio_s3_path : string) : M string :=
  final_response <- agent_call w (merge_request video_s3_path audio_s3_path) ;;
  path_or_call final_response (merge_video_and_audio w video_s3_path audio_s3_path).

Definition steps (w : world) : pipeline_steps :=
  {| run_image := step_image w; run_video := step_video w;
     run_audio := step_audio w; run_merge := step_merge w |}.

(** [VideoAdAgent.create_video_ad] (streamlit_agent.py:34-115): no [try]
    surrounds the steps, and the dictionary is built after the last one. *)
Definition create_video_ad (w : world) (ad_description : string) : M ad_result :=
  strategy_data <- step_strategy w ad_description ;;
  image_s3_path <- step_image w strategy_data ;;
  video_s3_path <- step_video w strategy_data image_s3_path ;;
  audio_s3_path <- step_audio w strategy_data ;;
  final_s3_path <- step_merge w video_s3_path audio_s3_path ;;
  ret {| strategy := strategy_data; image_path := image_s3_path;
         video_path := video_s3_path; audio_path := audio_s3_path;
         final_path := final_s3_path |}.

End AgentApp.

(** ** States and predicates used in the statements *)

(** The state after one round of the poll loop that goes round again: one
    status query, one sleep. *)
Definition after_wait (invocation_arn : string) (s : state) : state :=
  with_calls (fun l => l ++ [EvSleep poll_interval])
    (with_calls (fun l => l ++ [EvGetAsyncInvoke invocation_arn]) (next_poll s)).

Fixpoint waited (invocation_arn : string) (n : nat) (s : state) : state :=
  match n with
  | O => s
  | S n' => waited invocation_arn n' (after_wait invocation_arn s)
  end.

(** A status query that answers, with a status that is neither [Completed]
    nor [Failed]. *)
Definition nonterminal (r : result status_response) : Prop :=
  exists resp, r = Ok resp /\ status resp <> "Completed" /\ status resp <> "Failed".

(** The names [create_video_with_nova_reel] computes before it submits the
    job, as functions of the state it starts from. *)
Definition job_video_key (w : world) (s : state) : string :=
  "generated_videos/video_" +:+ uuid4_hex w (S (uuids_drawn s)).

Definition job_output_uri (w : world) (s : state) : string :=
  "s3://" +:+ s3_bucket w +:+ "/" +:+ job_video_key w s +:+ "/".

Definition job_tmp_file (w : world) (s : state) : string :=
  tmp_name w (tmp_made s) ".png".

(** The state in which the poll loop starts: two identifiers drawn, the
    temporary image created and removed again, the image fetched and the job
    submitted. *)
Definition submitted (w : world) (bucket key : string) (payload : video_payload)
    (s : state) : state :=
  {| calls := calls s ++ [EvGetObject bucket key;
                          EvStartAsyncInvoke payload (job_output_uri w s)];
     fs := ({[job_tmp_file w s]} ∪ fs s) ∖ {[job_tmp_file w s]};
     uuids_drawn := S (S (uuids_drawn s));
     tmp_made := S (tmp_made s);
     polls_made := polls_made s;
     agent_calls := agent_calls s;
     clock_reads := clock_reads s;
     rand_draws := rand_draws s |}.

(** The handler of [create_video_with_nova_reel] (enhanced_tools.py:302-304). *)
Definition video_failure (e : string) : string := "Failed to create video: " +:+ e.

(** Seconds slept according to a log of calls. *)
Fixpoint slept (l : list event) : Z :=
  match l with
  | [] => 0
  | EvSleep n :: rest => n + slept rest
  | _ :: rest => slept rest
  end.

(** The messages of the two ways the job itself ends badly. *)
Definition timeout_message : string := "Video generation timed out after 600 seconds".

Definition job_failed_message (failure : string) : string :=
  "Video generation failed: " +:+ failure.

Definition not_found_message : string := "Video file not found in S3 after completion".

Definition is_mp4 (key : string) : bool := Py.endswith key ".mp4".

(** Events other than the submission of a video job. *)
Definition no_submission (e : event) : Prop :=
  match e with EvStartAsyncInvoke _ _ => False | _ => True end.


(** The reading of "a failed status query is retried" on one run: every
    status query made between the two states that raised was followed by
    another query. *)
Definition retried_after_error (w : world) (invocation_arn : string)
    (before after : state) : Prop :=
  forall k msg,
    (polls_made before <= k < polls_made after)%nat ->
    get_async_invoke w k invocation_arn = Raise msg ->
    (S k < polls_made after)%nat.

(** Two ways a step can treat a set [F] of local files: it never deletes
    any of them, or at least not when it raises. *)
Definition preserves {A} (F : gset string) (m : M A) : Prop :=
  forall s, F ⊆ fs s -> F ⊆ fs (snd (m s)).

Definition raise_keeps {A} (F : gset string) (m : M A) : Prop :=
  forall s msg s', F ⊆ fs s -> m s = (Raise msg, s') -> F ⊆ fs s'.

(** A step that cannot raise. *)
Definition never_raises {A} (m : M A) : Prop :=
  forall s, is_ok (fst (m s)) = true.

(** The handler of [merge_video_and_audio] (enhanced_tools.py:432-434). *)
Definition merge_failure (e : string) : string :=
  "Failed to merge video and audio: " +:+ e.

(** The temporary files of a call of [merge_video_and_audio] that starts in
    state [s]: the downloaded video, the downloaded audio, the muxed output. *)
Definition merge_video_file (w : world) (s : state) : string :=
  tmp_name w (tmp_made s) ".mp4".
Definition merge_audio_file (w : world) (s : state) : string :=
  tmp_name w (S (tmp_made s)) ".mp3".
Definition merge_final_file (w : world) (s : state) : string :=
  tmp_name w (S (S (tmp_made s))) ".mp4".

(** A step whose calls all satisfy [P]: the log only grows, and by events
    that satisfy [P]. *)
Definition logs {A} (P : event -> Prop) (m : M A) : Prop :=
  forall s, exists l, calls (snd (m s)) = calls s ++ l /\ Forall P l.


(** The text [generate_content_strategy] hands to the decoder: from the
    first opening brace to the last closing brace of the model's answer
    (enhanced_tools.py:102-104). *)
Definition extracted_json (content : string) : string :=
  Py.slice content (Py.find "{" content) (Py.rfind "}" content + 1).

(** The request [generate_content_strategy] logs. *)
Definition strategy_call (ad_description : string) : event :=
  EvInvokeModel "us.amazon.nova-lite-v1:0" (strategy_prompt ad_description).

(** A strategy field that is present, a string, and not the empty one. *)
Definition nonempty_field (strategy_data : json) (key : string) : Prop :=
  exists s, field strategy_data key = Ok s /\ s <> "".

(** A strategy as the data model wants it: the three fields non-empty. *)
Definition valid_strategy (strategy_data : json) : Prop :=
  Forall (nonempty_field strategy_data) required_keys.

(** What a step adds to the log when it starts in state [s]. *)
Definition run_log {A} (m : M A) (s : state) : list event :=
  drop (length (calls s)) (calls (snd (m s))).



(** The keys of enhanced_tools.py as functions of the identifier drawn
    (lines 138, 214-215, 319, 393). *)
Definition image_key_of (u : string) : string :=
  "generated_images/ref_image_" +:+ u +:+ ".png".

Definition audio_key_of (u : string) : string :=
  "generated_audio/voiceover_" +:+ u +:+ ".mp3".

Definition final_key_of (u : string) : string :=
  "final_videos/ad_" +:+ u +:+ ".mp4".

Definition job_output_of (bucket u : string) : string :=
  "s3://" +:+ bucket +:+ "/" +:+ ("generated_videos/video_" +:+ u) +:+ "/".

(** A key that embeds an identifier drawn in world [w]. *)
Definition uuid_key (w : world) (key : string) : Prop :=
  exists i, key = image_key_of (uuid4_hex w i) \/
            key = audio_key_of (uuid4_hex w i) \/
            key = final_key_of (uuid4_hex w i).

Definition uuid_output (w : world) (uri : string) : Prop :=
  exists i, uri = job_output_of (s3_bucket w) (uuid4_hex w i).

(** An event that writes, or has the service write, only under such a
    name. *)
Definition uuid_keyed (w : world) (e : event) : Prop :=
  match e with
  | EvPutObject _ key _ => uuid_key w key
  | EvStartAsyncInvoke _ uri => uuid_output w uri
  | _ => True
  end.


(** ** Counting *)

(** Occurrences of a character in a string. *)
Fixpoint count_char (c : ascii) (s : string) : nat :=
  match s with
  | EmptyString => 0
  | String a s' => (if Ascii.eqb a c then 1 else 0) + count_char c s'
  end.

(** The sum of a cost over a log. *)
Definition total (f : event -> Z) (l : list event) : Z :=
  fold_right (fun e acc => f e + acc) 0 l.

Definition query_cost (e : event) : Z :=
  match e with EvGetAsyncInvoke _ => 1 | _ => 0 end.

Definition sleep_cost (e : event) : Z :=
  match e with EvSleep seconds => seconds | _ => 0 end.

Definition submission_cost (e : event) : Z :=
  match e with EvStartAsyncInvoke _ _ => 1 | _ => 0 end.

Definition listing_cost (e : event) : Z :=
  match e with EvListObjects _ _ => 1 | _ => 0 end.

Definition upload_cost (e : event) : Z :=
  match e with EvPutObject _ _ _ => 1 | _ => 0 end.

(** A step that adds to the log at most [n] of the cost [f], whatever the
    state it starts from and however it ends. *)
Definition costs {A} (f : event -> Z) (n : Z) (m : M A) : Prop :=
  forall s, exists l, calls (snd (m s)) = calls s ++ l /\ total f l <= n.

(** A step that leaves the local files as they are. *)
Definition keeps_files {A} (m : M A) : Prop :=
  forall s, fs (snd (m s)) = fs s.


(** Every character of a string passes a test. *)
Fixpoint all_chars (p : ascii -> bool) (s : string) : bool :=
  match s with
  | EmptyString => true
  | String a s' => p a && all_chars p s'
  end.

(** ** The scripts from the prompts on: simple_video_ad.py and auto_video_ad.py

    The steps after the prompts have been read off the model's answer.
    The calls that only draw on the page ([st.success], [st.info],
    [st.video], the progress bar) are left out; [st.stop()] ends the run. *)

Module Auto.

(** [s.split(sep)] for a separator of one or more characters: the
    occurrences are found from the left and do not overlap.  [skip] counts
    the characters of a separator just found that are still to be passed. *)
Fixpoint split_go (sep : string) (skip : nat) (s : string) : list string :=
  match s with
  | EmptyString => [EmptyString]
  | String a s' =>
      match skip with
      | S k => split_go sep k s'
      | O =>
          if Py.startswith s sep
          then EmptyString :: split_go sep (String.length sep - 1) s'
          else match split_go sep 0 s' with
               | [] => [String a EmptyString]
               | w :: ws => String a w :: ws
               end
      end
  end.

Definition split_str (sep s : string) : list string := split_go sep 0 s.

(** The value of [video_arn] after auto_video_ad.py:62-63: the name is
    bound only when the result of the video step holds [ARN:]. *)
Definition video_arn_of (video_result : string) : result (option string) :=
  if Py.contains video_result "ARN:" then
    match split_str "ARN: " video_result !! 1%nat with
    | Some piece =>
        match Py.split "." piece with
        | first :: _ => Ok (Some first)
        | [] => Raise "list index out of range"
        end
    | None => Raise "list index out of range"
    end
  else Ok None.

Definition name_error : string := "name 'video_arn' is not defined".

(** Reading the variable [video_arn]. *)
Definition read_arn (video_arn : option string) : M string :=
  match video_arn with
  | Some arn => ret arn
  | None => raise name_error
  end.

(** The wait loop (auto_video_ad.py:73-89): with [video_arn] unbound the
    first evaluation of the call raises [NameError] inside the [try], and
    the handler leaves the loop. *)
Definition wait (fuel : nat) (w : world) (video_arn : option string)
    : M (option Script.wait_exit) :=
  match video_arn with
  | Some arn => Script.wait_for_video fuel w arn
  | None => ret (Some (Script.WaitPollError name_error))
  end.

Definition display_file_of (unique_id : string) : string :=
  "display_" +:+ unique_id +:+ ".mp4".

(** Step 5 and the display (auto_video_ad.py:123-188). *)
Definition merge_and_display (w : world) (video_arn : option string)
    (audio_s3_key : string) : M string :=
  arn <- read_arn video_arn ;;
  let s3_prefix := Script.last_piece arn in
  u <- uuid4 w ;;
  let unique_id := Py.take 8 u in
  final_s3_key <-
    try_finally (Script.merge_try w s3_prefix audio_s3_key unique_id)
                (Script.cleanup w [Script.video_file_of unique_id;
                                   Script.audio_file_of unique_id;
                                   Script.output_file_of unique_id]) ;;
  let final_video_path := Locator.format (s3_bucket w) final_s3_key in
  try_except (Script.download_file w (s3_bucket w) final_s3_key
                (display_file_of unique_id))
             (fun _ => ret tt) ;;;
  ret final_video_path.

(** How a run of the page ends when nothing raises. *)
Inductive run_end : Type :=
| Finished (final_video_path : string)
| Stopped
| StillWaiting.

(** auto_video_ad.py:63-188: the page once the video step has answered.
    The wait loop has no ceiling; [fuel] bounds its model, and
    [StillWaiting] says the bound was reached. *)
Definition after_video (fuel : nat) (w : world)
    (video_result audio_script : string) : M run_end :=
  video_arn <- lift (video_arn_of video_result) ;;
  sleep 2 ;;;
  exit <- wait fuel w video_arn ;;
  match exit with
  | None => ret StillWaiting
  | Some Script.WaitStopped => ret Stopped
  | Some _ =>
      audio <- Script.create_audio w audio_script ;;
      final_video_path <- merge_and_display w video_arn (fst audio) ;;
      ret (Finished final_video_path)
  end.

(** auto_video_ad.py:47-188. *)
Definition run_from_prompts (fuel : nat) (w : world)
    (image_prompt video_prompt audio_script : string) : M run_end :=
  image_path <- Script.create_image_and_save_s3 w image_prompt ;;
  sleep 1 ;;;
  video_result <- Script.create_video_with_image w video_prompt image_path ;;
  after_video fuel w video_result audio_script.

(** simple_video_ad.py:153-160: [create_video_ad] after the prompts. *)
Definition create_video_ad_from_prompts (w : world)
    (image_prompt video_prompt : string) : M string :=
  image_path <- Script.create_image_and_save_s3 w image_prompt ;;
  Script.create_video_with_image w video_prompt image_path.

End Auto.

(** ** Sample worlds

    Concrete worlds on which the statements are exercised.  Identifiers and
    temporary names are numbered, every service answers unless a parameter
    says otherwise. *)

Definition in_progress : status_response :=
  {| status := "InProgress"; failureMessage := None |}.

Definition completed : status_response :=
  {| status := "Completed"; failureMessage := None |}.

Definition sample_arn : string :=
  "arn:aws:bedrock:us-east-1:123456789012:async-invoke/k3x9q2".

Definition sample_world
    (polls : nat -> result status_response)
    (listing : result (list string))
    (objects : string -> string -> result string)
    (model_text : result string)
    (decoder : string -> result json)
    (speech : result string)
    (durations : Q * Q)
    (muxing : result unit)
    (agent_answers : nat -> result string)
    (stamps : nat -> string) : world :=
  {| s3_bucket := "deb-banners";
     uuid4_hex := fun n => "9f1c2d3e4b5a69788796a5b4c3d2e1f" +:+ pretty n;
     tmp_name := fun n suffix => "/tmp/tmp" +:+ pretty n +:+ suffix;
     now_stamp := stamps;
     randint := fun n => Z.of_nat n;
     json_loads := decoder;
     invoke_model := fun _ _ => model_text;
     render_placeholder := fun _ => Ok "png-bytes";
     canvas_image := fun _ _ => Ok "png-bytes";
     put_object := fun _ _ => Ok tt;
     get_object := objects;
     b64encode := fun b => "b64:" +:+ b;
     start_async_invoke := fun _ _ => Ok sample_arn;
     get_async_invoke := fun n _ => polls n;
     list_objects_v2 := fun _ _ => listing;
     synthesize_speech := fun _ => speech;
     open_video_clip := fun _ => Ok (fst durations);
     open_audio_clip := fun _ => Ok (snd durations);
     write_videofile := fun _ => muxing;
     unlink_denied := fun _ => false;
     agent_init := Ok tt;
     agent := fun n _ => agent_answers n |}.

(** A world whose video job never leaves [InProgress]. *)
Definition stuck_world : world :=
  sample_world (fun _ => Ok in_progress) (Ok []) (fun _ _ => Ok "image")
    (Raise "AccessDeniedException") (fun _ => Raise "Expecting value")
    (Ok "mp3-bytes") (6%Q, 9%Q) (Ok tt) (fun _ => Ok "done") (fun _ => "20250101_120000").

(** A world whose job is complete at the third status query; the listing of
    the output prefix is a parameter. *)
Definition finishing_world (listing : list string) : world :=
  sample_world (fun n => if (n <? 2)%nat then Ok in_progress else Ok completed)
    (Ok listing) (fun _ _ => Ok "image")
    (Raise "AccessDeniedException") (fun _ => Raise "Expecting value")
    (Ok "mp3-bytes") (6%Q, 9%Q) (Ok tt) (fun _ => Ok "done") (fun _ => "20250101_120000").

(** A world whose first status query fails once; from the second query on
    the job is reported complete and its output is in place. *)
Definition flaky_world : world :=
  sample_world (fun n => if (n =? 0)%nat then Raise "ThrottlingException" else Ok completed)
    (Ok ["generated_videos/video_9f1c2d3e4b5a69788796a5b4c3d2e1f1/k3x9q2/output.mp4"])
    (fun _ _ => Ok "image")
    (Raise "AccessDeniedException") (fun _ => Raise "Expecting value")
    (Ok "mp3-bytes") (6%Q, 9%Q) (Ok tt) (fun _ => Ok "done") (fun _ => "20250101_120000").

Definition sample_image : string :=
  "s3://deb-banners/generated_images/ref_image_9f1c2d3e4b5a69788796a5b4c3d2e1f0.png".



(** A world in which the video object to merge is missing from the bucket:
    fetching any key under [generated_videos/] fails. *)
Definition missing_video_world : world :=
  sample_world (fun _ => Ok completed) (Ok [])
    (fun _ key => if Py.startswith key "generated_videos/"
                  then Raise "An error occurred (404) when calling the HeadObject operation: Not Found"
                  else Ok "bytes")
    (Raise "AccessDeniedException") (fun _ => Raise "Expecting value")
    (Ok "mp3-bytes") (6%Q, 9%Q) (Ok tt) (fun _ => Ok "done") (fun _ => "20250101_120000").

(** A world in which everything is fetched but the encoder fails. *)
Definition broken_encoder_world : world :=
  sample_world (fun _ => Ok completed) (Ok []) (fun _ _ => Ok "bytes")
    (Raise "AccessDeniedException") (fun _ => Raise "Expecting value")
    (Ok "mp3-bytes") (6%Q, 9%Q) (Raise "ffmpeg returned an error") (fun _ => Ok "done")
    (fun _ => "20250101_120000").

(** A world in which every service answers; the clip durations are
    parameters. *)
Definition calm_world (V A : Q) : world :=
  sample_world (fun _ => Ok completed) (Ok ["out/output.mp4"]) (fun _ _ => Ok "bytes")
    (Raise "AccessDeniedException") (fun _ => Raise "Expecting value")
    (Ok "mp3-bytes") (V, A) (Ok tt) (fun _ => Ok "done") (fun _ => "20250101_120000").

Definition sample_video : string :=
  "s3://deb-banners/generated_videos/video_9f1c2d3e4b5a69788796a5b4c3d2e1f1/k3x9q2/output.mp4".

Definition sample_audio : string :=
  "s3://deb-banners/generated_audio/voiceover_9f1c2d3e4b5a69788796a5b4c3d2e1f2.mp3".


Definition sample_image_path : string :=
  "s3://deb-banners/generated_images/ref_image_9f1c2d3e4b5a69788796a5b4c3d2e1f0.png".


(** The text of a JSON object with the three strategy fields, and the value
    the decoder gives for it. *)
Definition quoted (s : string) : string :=
  String AgentApp.quote (s +:+ String AgentApp.quote EmptyString).

Definition strategy_text (image_prompt video_prompt audio_script : string) : string :=
  "{" +:+ quoted "image_prompt" +:+ ": " +:+ quoted image_prompt +:+ ", " +:+
  quoted "video_prompt" +:+ ": " +:+ quoted video_prompt +:+ ", " +:+
  quoted "audio_script" +:+ ": " +:+ quoted audio_script +:+ "}".

Definition strategy_object (image_prompt video_prompt audio_script : string) : json :=
  JObj [("image_prompt", JStr image_prompt); ("video_prompt", JStr video_prompt);
        ("audio_script", JStr audio_script)].

(** A world whose text model answers with such an object, wrapped in a
    sentence; the decoder knows that one text. *)
Definition answering_world (image_prompt video_prompt audio_script : string) : world :=
  sample_world (fun _ => Ok completed) (Ok ["out/output.mp4"]) (fun _ _ => Ok "bytes")
    (Ok ("Here is the strategy: " +:+
         strategy_text image_prompt video_prompt audio_script +:+ " Enjoy."))
    (fun t => if String.eqb t (strategy_text image_prompt video_prompt audio_script)
              then Ok (strategy_object image_prompt video_prompt audio_script)
              else Raise "Expecting value")
    (Ok "mp3-bytes") (6%Q, 9%Q) (Ok tt) (fun _ => Ok "Done.")
    (fun _ => "20250101_120000").

(** The model answers with the three keys and nothing in them. *)
Definition blank_strategy : json := strategy_object EmptyString EmptyString EmptyString.

Definition blank_strategy_world : world :=
  answering_world EmptyString EmptyString EmptyString.

Definition car_strategy : json :=
  strategy_object "A red car on a coastal road" "The car drives along the coast"
                  "Drive the coast. Feel the road.".

Definition car_strategy_world : world :=
  answering_world "A red car on a coastal road" "The car drives along the coast"
                  "Drive the coast. Feel the road.".


(** A world in which the whole pipeline of enhanced_tools.py goes
    through. *)
Definition smooth_world : world :=
  sample_world (fun _ => Ok completed)
    (Ok ["generated_videos/video_x/k3x9q2/output.mp4"])
    (fun _ _ => Ok "bytes")
    (Raise "AccessDeniedException") (fun _ => Raise "Expecting value")
    (Ok "mp3-bytes") (6%Q, 9%Q) (Ok tt) (fun _ => Ok "Done.")
    (fun _ => "20250101_120000").

(** ** More sample worlds *)

Definition failed_without_message : status_response :=
  {| status := "Failed"; failureMessage := None |}.

(** A world whose job is reported failed, without a message, at the third
    status query. *)
Definition failing_job_world : world :=
  sample_world (fun n => if (n <? 2)%nat then Ok in_progress else Ok failed_without_message)
    (Ok []) (fun _ _ => Ok "image")
    (Raise "AccessDeniedException") (fun _ => Raise "Expecting value")
    (Ok "mp3-bytes") (6%Q, 9%Q) (Ok tt) (fun _ => Ok "Done.") (fun _ => "20250101_120000").

(** A world whose bucket holds nothing: every fetch fails. *)
Definition empty_bucket_world : world :=
  sample_world (fun _ => Ok completed) (Ok [])
    (fun _ _ => Raise "An error occurred (404) when calling the HeadObject operation: Not Found")
    (Raise "AccessDeniedException") (fun _ => Raise "Expecting value")
    (Ok "mp3-bytes") (6%Q, 9%Q) (Ok tt) (fun _ => Ok "Done.") (fun _ => "20250101_120000").

(** A world whose text model answers in prose, without any JSON. *)
Definition prose_world : world :=
  sample_world (fun _ => Ok completed) (Ok []) (fun _ _ => Ok "bytes")
    (Ok "I can not help with that request.") (fun _ => Raise "Expecting value")
    (Ok "mp3-bytes") (6%Q, 9%Q) (Ok tt) (fun _ => Ok "Done.") (fun _ => "20250101_120000").

(** A world like [w] in which the image model refuses every request. *)
Definition without_image_model (w : world) : world :=
  {| s3_bucket := s3_bucket w;
     uuid4_hex := uuid4_hex w;
     tmp_name := tmp_name w;
     now_stamp := now_stamp w;
     randint := randint w;
     json_loads := json_loads w;
     invoke_model := invoke_model w;
     render_placeholder := render_placeholder w;
     canvas_image := fun _ _ => Raise "An error occurred (ThrottlingException)";
     put_object := put_object w;
     get_object := get_object w;
     b64encode := b64encode w;
     start_async_invoke := start_async_invoke w;
     get_async_invoke := get_async_invoke w;
     list_objects_v2 := list_objects_v2 w;
     synthesize_speech := synthesize_speech w;
     open_video_clip := open_video_clip w;
     open_audio_clip := open_audio_clip w;
     write_videofile := write_videofile w;
     unlink_denied := unlink_denied w;
     agent_init := agent_init w;
     agent := agent w |}.

Definition throttled_world : world := without_image_model smooth_world.

(** * Properties *)

(** ** Python string primitives *)

Section PyFacts.

Local Open Scope nat_scope.

Lemma append_empty_r (s : string) : s +:+ "" = s.
Proof. induction s as [|a s IH]; simpl; [reflexivity | now rewrite IH]. Qed.

Lemma append_assoc (a b c : string) : (a +:+ b) +:+ c = a +:+ (b +:+ c).
Proof. induction a as [|x a IH]; simpl; [reflexivity | now rewrite IH]. Qed.

Lemma append_length (a b : string) :
  String.length (a +:+ b) = String.length a + String.length b.
Proof. induction a as [|x a IH]; simpl; [reflexivity | now rewrite IH]. Qed.



Lemma split_nonempty (c : ascii) (s : string) : Py.split c s <> [].
Proof.
  induction s as [|a s IH]; simpl; [discriminate|].
  destruct (Ascii.eqb a c); [discriminate|].
  destruct (Py.split c s); discriminate.
Qed.

(** Splitting at the first separator: a piece without separator comes off
    the front unchanged. *)
Lemma split_first_piece (c : ascii) (piece rest : string) :
  Py.contains_char c piece = false ->
  Py.split c (piece +:+ String c rest) = piece :: Py.split c rest.
Proof.
  induction piece as [|a piece IH]; simpl; intros H.
  - now rewrite Ascii.eqb_refl.
  - apply orb_false_elim in H as [Ha Hp]. rewrite Ha, (IH Hp). reflexivity.
Qed.

(** Joining what [split] produced gives the string back. *)
Lemma join_split (c : ascii) (s : string) :
  Py.join (String c "") (Py.split c s) = s.
Proof.
  induction s as [|a s IH]; simpl; [reflexivity|].
  destruct (Ascii.eqb a c) eqn:E.
  - apply Ascii.eqb_eq in E as ->.
    pose proof (split_nonempty c s) as Hne.
    destruct (Py.split c s) as [|w ws] eqn:Hs; [contradiction|].
    change (Py.join (String c "") ("" :: w :: ws))
      with ("" +:+ String c "" +:+ Py.join (String c "") (w :: ws)).
    rewrite IH. reflexivity.
  - pose proof (split_nonempty c s) as Hne.
    destruct (Py.split c s) as [|w ws] eqn:Hs; [contradiction|].
    destruct ws as [|w' ws].
    + simpl in *. now rewrite IH.
    + change (Py.join (String c "") (String a w :: w' :: ws))
        with (String a (w +:+ String c "" +:+ Py.join (String c "") (w' :: ws))).
      f_equal. exact IH.
Qed.

Lemma substring_0_length (s : string) : String.substring 0 (String.length s) s = s.
Proof. induction s as [|a s IH]; simpl; [reflexivity | now rewrite IH]. Qed.



End PyFacts.

(** ** Locators *)

Lemma split_format (bucket key : string) :
  Py.contains_char "/" bucket = false ->
  Py.split "/" (Locator.format bucket key) = "s3:" :: "" :: bucket :: Py.split "/" key.
Proof.
  intros Hb. unfold Locator.format.
  change ("s3://" +:+ bucket +:+ "/" +:+ key)
    with ("s3:" +:+ String "/" ("" +:+ String "/" (bucket +:+ String "/" key))).
  rewrite split_first_piece by reflexivity.
  rewrite split_first_piece by reflexivity.
  rewrite split_first_piece by exact Hb.
  reflexivity.
Qed.

(** C10.  Parsing is a left inverse of formatting: for a bucket name without
    ['/'] and a non-empty key, the locator [s3://bucket/key] is split back
    into exactly that bucket (the element at index 2) and that key (the
    elements from index 3 on, joined by ['/']). *)
Theorem locator_parse_format (bucket key : string) :
  Py.contains_char "/" bucket = false ->
  key <> "" ->
  Py.split "/" (Locator.format bucket key) !! 2%nat = Some bucket /\
  Py.join "/" (Py.list_from 3 (Py.split "/" (Locator.format bucket key))) = key /\
  Locator.parse (Locator.format bucket key) = Ok (bucket, key).
Proof.
  intros Hb _.
  unfold Locator.parse, Locator.bucket_of, Locator.key_of, Py.list_from.
  rewrite (split_format bucket key Hb).
  change (drop 3 ("s3:" :: "" :: bucket :: Py.split "/" key)) with (Py.split "/" key).
  change (("s3:" :: "" :: bucket :: Py.split "/" key) !! 2%nat) with (Some bucket).
  rewrite (join_split "/" key). auto.
Qed.

Lemma locator_parse_format_witness :
  Py.split "/" (Locator.format "deb-banners" "generated_images/ref_image_0f.png") !! 2%nat
    = Some "deb-banners" /\
  Py.join "/" (Py.list_from 3
     (Py.split "/" (Locator.format "deb-banners" "generated_images/ref_image_0f.png")))
    = "generated_images/ref_image_0f.png" /\
  Locator.parse (Locator.format "deb-banners" "generated_images/ref_image_0f.png")
    = Ok ("deb-banners", "generated_images/ref_image_0f.png").
Proof.
  apply (locator_parse_format "deb-banners" "generated_images/ref_image_0f.png").
  - reflexivity.
  - discriminate.
Defined.

(** ** Runs: unfolding one step *)

(** Projections of an updated state, without touching the strings. *)
Ltac state_simpl :=
  cbn [calls fs uuids_drawn tmp_made polls_made agent_calls clock_reads rand_draws
       with_calls with_fs next_uuid next_tmp next_poll next_agent next_clock
       next_rand fst snd] in *.

Lemma bind_ok {A B} (m : M A) (k : A -> M B) s v s' :
  m s = (Ok v, s') -> bind m k s = k v s'.
Proof. unfold bind. now intros ->. Qed.


Lemma try_except_ok {A} (m : M A) h s v s' :
  m s = (Ok v, s') -> try_except m h s = (Ok v, s').
Proof. unfold try_except. now intros ->. Qed.

Lemma try_except_raise {A} (m : M A) h s msg s' :
  m s = (Raise msg, s') -> try_except m h s = h msg s'.
Proof. unfold try_except. now intros ->. Qed.

(** ** The poll loop of [create_video_with_nova_reel] *)

Lemma poll_loop_timeout w arn key e s :
  max_wait_time <= e ->
  poll_loop w arn key e s = (Raise "Video generation timed out after 600 seconds", s).
Proof.
  intros H. rewrite poll_loop_equation_1.
  destruct (Z_lt_dec e max_wait_time) as [Hlt|Hge]; [lia | reflexivity].
Qed.

(** One iteration, by the answer of its status query. *)
Lemma poll_loop_query_raises w arn key e s msg :
  e < max_wait_time ->
  get_async_invoke w (polls_made s) arn = Raise msg ->
  poll_loop w arn key e s =
    (Raise msg, with_calls (fun l => l ++ [EvGetAsyncInvoke arn]) (next_poll s)).
Proof.
  intros H Hq. rewrite poll_loop_equation_1.
  destruct (Z_lt_dec e max_wait_time) as [Hlt|Hge]; [|lia].
  simpl. unfold bind, poll_status. now rewrite Hq.
Qed.

Lemma poll_loop_completed w arn key e s resp :
  e < max_wait_time ->
  get_async_invoke w (polls_made s) arn = Ok resp ->
  status resp = "Completed" ->
  poll_loop w arn key e s =
    locate_video w key (with_calls (fun l => l ++ [EvGetAsyncInvoke arn]) (next_poll s)).
Proof.
  intros H Hq Hs. rewrite poll_loop_equation_1.
  destruct (Z_lt_dec e max_wait_time) as [Hlt|Hge]; [|lia].
  simpl. unfold bind, poll_status. rewrite Hq, Hs. reflexivity.
Qed.

Lemma poll_loop_failed w arn key e s resp :
  e < max_wait_time ->
  get_async_invoke w (polls_made s) arn = Ok resp ->
  status resp = "Failed" ->
  poll_loop w arn key e s =
    (Raise ("Video generation failed: " +:+ default "Unknown error" (failureMessage resp)),
     with_calls (fun l => l ++ [EvGetAsyncInvoke arn]) (next_poll s)).
Proof.
  intros H Hq Hs. rewrite poll_loop_equation_1.
  destruct (Z_lt_dec e max_wait_time) as [Hlt|Hge]; [|lia].
  simpl. unfold bind, poll_status. rewrite Hq, Hs. reflexivity.
Qed.

Lemma poll_loop_wait w arn key e s :
  e < max_wait_time ->
  nonterminal (get_async_invoke w (polls_made s) arn) ->
  poll_loop w arn key e s = poll_loop w arn key (e + poll_interval) (after_wait arn s).
Proof.
  intros H (resp & Hq & Hc & Hf). rewrite poll_loop_equation_1.
  destruct (Z_lt_dec e max_wait_time) as [Hlt|Hge]; [|lia].
  simpl. unfold bind, poll_status. rewrite Hq.
  apply String.eqb_neq in Hc, Hf. rewrite Hc, Hf.
  destruct (String.eqb (status resp) "InProgress" || String.eqb (status resp) "Submitted");
    reflexivity.
Qed.

Lemma waited_polls arn n s : polls_made (waited arn n s) = (polls_made s + n)%nat.
Proof.
  revert s. induction n as [|n IH]; intros s; simpl; [lia|].
  rewrite IH. simpl. lia.
Qed.

Lemma waited_calls arn n s :
  calls (waited arn n s) =
  calls s ++ concat (replicate n [EvGetAsyncInvoke arn; EvSleep poll_interval]).
Proof.
  revert s. induction n as [|n IH]; intros s; simpl.
  - now rewrite app_nil_r.
  - rewrite IH. simpl. now rewrite <- !app_assoc.
Qed.

Lemma waited_fs arn n s : fs (waited arn n s) = fs s.
Proof. revert s. induction n as [|n IH]; intros s; simpl; [reflexivity|]. now rewrite IH. Qed.

Lemma waited_uuids arn n s : uuids_drawn (waited arn n s) = uuids_drawn s.
Proof. revert s. induction n as [|n IH]; intros s; simpl; [reflexivity|]. now rewrite IH. Qed.

(** [n] rounds in a row that go round again. *)
Lemma poll_loop_waits w arn key n : forall e s,
  (forall i, (i < n)%nat -> nonterminal (get_async_invoke w (polls_made s + i) arn)) ->
  e + poll_interval * Z.of_nat n < max_wait_time + poll_interval ->
  poll_loop w arn key e s =
  poll_loop w arn key (e + poll_interval * Z.of_nat n) (waited arn n s).
Proof.
  induction n as [|n IH]; intros e s Hq He.
  - simpl. f_equal. lia.
  - rewrite poll_loop_wait.
    + rewrite IH.
      * simpl. f_equal. lia.
      * intros i Hi.
        replace (polls_made (after_wait arn s) + i)%nat
          with (polls_made s + S i)%nat by (simpl; lia).
        apply Hq. lia.
      * unfold poll_interval, max_wait_time in *. lia.
    + unfold poll_interval, max_wait_time in *. lia.
    + replace (polls_made s) with (polls_made s + 0)%nat by lia. apply Hq. lia.
Qed.

(** The steps before the loop, when each of them succeeds. *)
Lemma create_video_reaches_loop w video_prompt reference_image_s3 s bucket image arn :
  Locator.bucket_of reference_image_s3 = Ok bucket ->
  get_object w bucket (Locator.key_of reference_image_s3) = Ok image ->
  unlink_denied w (job_tmp_file w s) = false ->
  start_async_invoke w
    (nova_reel_payload (truncated_prompt video_prompt) (b64encode w image))
    (job_output_uri w s) = Ok arn ->
  create_video_with_nova_reel w video_prompt reference_image_s3 s =
  try_except (poll_loop w arn (job_video_key w s) 0)
             (fun e => raise (video_failure e))
             (submitted w bucket (Locator.key_of reference_image_s3)
                (nova_reel_payload (truncated_prompt video_prompt) (b64encode w image)) s).
Proof.
  intros Hb Hg Hu Hs.
  unfold create_video_with_nova_reel, try_except at 1.
  unfold bind at 1. unfold uuid4 at 1.
  unfold bind at 1. unfold lift at 1. rewrite Hb.
  unfold bind at 1. unfold named_temporary_file at 1.
  unfold bind at 1. unfold call at 1. state_simpl. rewrite Hg.
  unfold bind at 1. unfold os_unlink at 1. state_simpl.
  rewrite bool_decide_eq_true_2 by set_solver.
  unfold job_tmp_file in Hu. rewrite Hu.
  unfold bind at 1. unfold uuid4 at 1. state_simpl.
  unfold bind at 1. unfold call at 1. state_simpl.
  unfold job_output_uri, job_video_key in Hs. rewrite Hs.
  unfold try_except, submitted, job_video_key, job_output_uri, job_tmp_file, video_failure.
  match goal with
  | |- (let (_, _) := poll_loop _ _ _ _ ?a in _) = (let (_, _) := poll_loop _ _ _ _ ?b in _) =>
      replace a with b; [reflexivity|]
  end.
  unfold with_calls, with_fs, next_uuid, next_tmp. state_simpl.
  rewrite <- app_assoc. reflexivity.
Qed.

(** ** What a run logs *)

Section LogFacts.

Context (P : event -> Prop).

Lemma logs_silent {A} (m : M A) :
  (forall s, calls (snd (m s)) = calls s) -> logs P m.
Proof. intros H s. exists []. rewrite H, app_nil_r. split; [reflexivity | constructor]. Qed.

Lemma logs_ret {A} (v : A) : logs P (ret v).
Proof. now apply logs_silent. Qed.

Lemma logs_raise {A} msg : logs P (raise (A:=A) msg).
Proof. now apply logs_silent. Qed.

Lemma logs_lift {A} (r : result A) : logs P (lift r).
Proof. now apply logs_silent. Qed.

Lemma logs_uuid4 w : logs P (uuid4 w).
Proof. now apply logs_silent. Qed.

Lemma logs_named_temporary_file w suffix : logs P (named_temporary_file w suffix).
Proof. now apply logs_silent. Qed.

Lemma logs_os_unlink w path : logs P (os_unlink w path).
Proof.
  apply logs_silent. intros s. unfold os_unlink.
  destruct (bool_decide (path ∈ fs s)); [destruct (unlink_denied w path)|]; reflexivity.
Qed.

Lemma logs_call {A} (e : event) (r : result A) : P e -> logs P (call e r).
Proof.
  intros He s. exists [e]. split; [reflexivity | repeat constructor; exact He].
Qed.

Lemma logs_bind {A B} (m : M A) (k : A -> M B) :
  logs P m -> (forall v, logs P (k v)) -> logs P (bind m k).
Proof.
  intros Hm Hk s. unfold bind.
  destruct (Hm s) as (l1 & E1 & F1).
  destruct (m s) as [[v|e] s1]; cbn [snd] in *.
  - destruct (Hk v s1) as (l2 & E2 & F2).
    exists (l1 ++ l2). rewrite E2, E1, app_assoc. split; [reflexivity|].
    apply Forall_app. split; assumption.
  - exists l1. split; assumption.
Qed.


Lemma logs_try_except {A} (m : M A) (h : string -> M A) :
  logs P m -> (forall e, logs P (h e)) -> logs P (try_except m h).
Proof.
  intros Hm Hh s. unfold try_except.
  destruct (Hm s) as (l1 & E1 & F1).
  destruct (m s) as [[v|e] s1]; cbn [snd] in *.
  - exists l1. split; assumption.
  - destruct (Hh e s1) as (l2 & E2 & F2).
    exists (l1 ++ l2). rewrite E2, E1, app_assoc. split; [reflexivity|].
    apply Forall_app. split; assumption.
Qed.

Lemma logs_unlink_all w files : logs P (unlink_all w files).
Proof.
  induction files as [|f files IH]; [apply logs_ret|].
  apply logs_bind; [|intros _; exact IH].
  apply logs_try_except; [apply logs_os_unlink | intros _; apply logs_ret].
Qed.

Lemma logs_poll_status w arn : P (EvGetAsyncInvoke arn) -> logs P (poll_status w arn).
Proof.
  intros He s. exists [EvGetAsyncInvoke arn].
  split; [reflexivity | repeat constructor; exact He].
Qed.

Lemma logs_locate_video w key :
  P (EvListObjects (s3_bucket w) key) -> logs P (locate_video w key).
Proof.
  intros He. apply logs_bind; [apply logs_call; exact He | intros keys].
  destruct (first_mp4 keys); [apply logs_ret | apply logs_raise].
Qed.

(** The poll loop only queries the status, sleeps and lists. *)
Lemma logs_poll_loop w arn key :
  P (EvGetAsyncInvoke arn) -> P (EvSleep poll_interval) ->
  P (EvListObjects (s3_bucket w) key) ->
  forall n e, (remaining e <= n)%nat -> logs P (poll_loop w arn key e).
Proof.
  intros Hq Hsl Hls. induction n as [|n IH]; intros e Hn s.
  - rewrite poll_loop_timeout
      by (unfold remaining, max_wait_time in *; lia).
    exists []. rewrite app_nil_r. split; [reflexivity | constructor].
  - destruct (Z_lt_dec e max_wait_time) as [Hlt|Hge].
    + revert s. rewrite poll_loop_equation_1.
      destruct (Z_lt_dec e max_wait_time) as [Hlt2|]; [|lia]. simpl.
      assert (Hnext : logs P (sleep poll_interval ;;;
                              poll_loop w arn key (e + poll_interval))%run).
      { apply logs_bind; [apply logs_call; exact Hsl | intros _].
        apply IH. unfold remaining, max_wait_time, poll_interval in *. lia. }
      apply logs_bind; [apply logs_poll_status; exact Hq | intros resp].
      destruct (String.eqb (status resp) "Completed");
        [apply logs_locate_video; exact Hls|].
      destruct (String.eqb (status resp) "Failed"); [apply logs_raise|].
      destruct (String.eqb (status resp) "InProgress" || String.eqb (status resp) "Submitted");
        exact Hnext.
    + rewrite poll_loop_timeout by lia.
      exists []. rewrite app_nil_r. split; [reflexivity | constructor].
Qed.

End LogFacts.



(** ** Prompt clipping *)




(** ** The Video Job Runner *)

Lemma timeout_is_not_failure (failure : string) :
  video_failure timeout_message <> video_failure (job_failed_message failure).
Proof.
  unfold video_failure, timeout_message, job_failed_message. simpl. discriminate.
Qed.

Lemma slept_app (l1 l2 : list event) : slept (l1 ++ l2) = slept l1 + slept l2.
Proof.
  induction l1 as [|e l1 IH]; simpl; [reflexivity|].
  destruct e; rewrite ?IH; lia.
Qed.

Lemma slept_rounds arn n :
  slept (concat (replicate n [EvGetAsyncInvoke arn; EvSleep poll_interval]))
  = poll_interval * Z.of_nat n.
Proof.
  induction n as [|n IH]; [reflexivity|].
  change (replicate (S n) [EvGetAsyncInvoke arn; EvSleep poll_interval])
    with ([EvGetAsyncInvoke arn; EvSleep poll_interval]
            :: replicate n [EvGetAsyncInvoke arn; EvSleep poll_interval]).
  cbn [concat app slept]. rewrite IH. lia.
Qed.

(** C6.  When every status query answers with a status other than
    [Completed] and [Failed], the poll loop queries at 15-second intervals,
    stops when the 600 seconds are used up (40 queries, 40 sleeps, nothing
    else after the submission, in particular no call that cancels the job)
    and the runner raises the timeout error, whose message differs from
    that of every [Failed]-status error. *)
Theorem poll_ceiling_timeout w video_prompt reference_image_s3 s bucket image arn :
  Locator.bucket_of reference_image_s3 = Ok bucket ->
  get_object w bucket (Locator.key_of reference_image_s3) = Ok image ->
  unlink_denied w (job_tmp_file w s) = false ->
  start_async_invoke w
    (nova_reel_payload (truncated_prompt video_prompt) (b64encode w image))
    (job_output_uri w s) = Ok arn ->
  (forall k, nonterminal (get_async_invoke w k arn)) ->
  let payload := nova_reel_payload (truncated_prompt video_prompt) (b64encode w image) in
  let run := create_video_with_nova_reel w video_prompt reference_image_s3 s in
  fst run = Raise (video_failure timeout_message) /\
  calls (snd run) =
    calls s ++ [EvGetObject bucket (Locator.key_of reference_image_s3);
                EvStartAsyncInvoke payload (job_output_uri w s)]
            ++ concat (replicate 40 [EvGetAsyncInvoke arn; EvSleep 15]) /\
  polls_made (snd run) = (polls_made s + 40)%nat /\
  slept (calls (snd run)) = slept (calls s) + max_wait_time /\
  (forall failure,
     video_failure timeout_message <> video_failure (job_failed_message failure)).
Proof.
  intros Hb Hg Hu Hs Hq payload run.
  assert (Hrun : run = (Raise (video_failure timeout_message),
                        waited arn 40 (submitted w bucket
                          (Locator.key_of reference_image_s3) payload s))).
  { unfold run. rewrite (create_video_reaches_loop _ _ _ _ _ _ _ Hb Hg Hu Hs).
    unfold try_except.
    rewrite (poll_loop_waits w arn (job_video_key w s) 40).
    - rewrite poll_loop_timeout by (unfold poll_interval, max_wait_time; lia).
      reflexivity.
    - intros i _. apply Hq.
    - unfold poll_interval, max_wait_time. lia. }
  rewrite Hrun. cbn [fst snd].
  split; [reflexivity|].
  split; [rewrite waited_calls; unfold submitted; cbn [calls];
          rewrite <- app_assoc; reflexivity|].
  split; [rewrite waited_polls; reflexivity|].
  split; [|apply timeout_is_not_failure].
  rewrite waited_calls, slept_app, slept_rounds. unfold submitted. cbn [calls].
  rewrite slept_app. cbn [slept]. unfold poll_interval, max_wait_time. lia.
Qed.

Lemma poll_ceiling_timeout_witness :
  fst (create_video_with_nova_reel stuck_world "a car" sample_image initial_state)
  = Raise (video_failure timeout_message).
Proof.
  apply (poll_ceiling_timeout stuck_world "a car" sample_image initial_state
           "deb-banners" "image" sample_arn).
  - reflexivity.
  - reflexivity.
  - reflexivity.
  - reflexivity.
  - intros k. exists in_progress. repeat split; discriminate.
Defined.

Lemma first_mp4_none (keys : list string) :
  (forall k, In k keys -> is_mp4 k = false) -> first_mp4 keys = None.
Proof.
  unfold first_mp4. induction keys as [|k keys IH]; intros H; simpl; [reflexivity|].
  fold (is_mp4 k). rewrite (H k) by (left; reflexivity).
  apply IH. intros k' Hk'. apply H. now right.
Qed.

Lemma first_mp4_first (before after : list string) (k : string) :
  (forall k', In k' before -> is_mp4 k' = false) ->
  is_mp4 k = true ->
  first_mp4 (before ++ k :: after) = Some k.
Proof.
  unfold first_mp4. induction before as [|b before IH]; intros Hb Hk; simpl.
  - fold (is_mp4 k). now rewrite Hk.
  - fold (is_mp4 b). rewrite (Hb b) by (left; reflexivity).
    apply IH; [|exact Hk]. intros k' Hk'. apply Hb. now right.
Qed.

(** The run whose job is reported complete at its [n]-th query. *)
Lemma create_video_completed w video_prompt reference_image_s3 s bucket image arn n resp keys :
  Locator.bucket_of reference_image_s3 = Ok bucket ->
  get_object w bucket (Locator.key_of reference_image_s3) = Ok image ->
  unlink_denied w (job_tmp_file w s) = false ->
  start_async_invoke w
    (nova_reel_payload (truncated_prompt video_prompt) (b64encode w image))
    (job_output_uri w s) = Ok arn ->
  (n < 40)%nat ->
  (forall i, (i < n)%nat -> nonterminal (get_async_invoke w (polls_made s + i) arn)) ->
  get_async_invoke w (polls_made s + n) arn = Ok resp ->
  status resp = "Completed" ->
  list_objects_v2 w (s3_bucket w) (job_video_key w s) = Ok keys ->
  fst (create_video_with_nova_reel w video_prompt reference_image_s3 s) =
  match first_mp4 keys with
  | Some k => Ok (Locator.format (s3_bucket w) k)
  | None => Raise (video_failure not_found_message)
  end.
Proof.
  intros Hb Hg Hu Hs Hn Hq Hc Hst Hl.
  rewrite (create_video_reaches_loop _ _ _ _ _ _ _ Hb Hg Hu Hs).
  unfold try_except.
  rewrite (poll_loop_waits w arn (job_video_key w s) n);
    [|intros i Hi; apply Hq; exact Hi | unfold poll_interval, max_wait_time; lia].
  rewrite (poll_loop_completed _ _ _ _ _ resp);
    [|unfold poll_interval, max_wait_time; lia
     |rewrite waited_polls; exact Hc | exact Hst].
  unfold locate_video, bind, call. rewrite Hl.
  destruct (first_mp4 keys); reflexivity.
Qed.

(** C7.  When the job is reported [Completed] and the listing of its output
    prefix has no key ending in [.mp4], the runner raises the integrity
    error; when the listing has such a key, the runner returns the locator
    of the first one. *)
Theorem completed_job_output w video_prompt reference_image_s3 s bucket image arn n resp keys :
  Locator.bucket_of reference_image_s3 = Ok bucket ->
  get_object w bucket (Locator.key_of reference_image_s3) = Ok image ->
  unlink_denied w (job_tmp_file w s) = false ->
  start_async_invoke w
    (nova_reel_payload (truncated_prompt video_prompt) (b64encode w image))
    (job_output_uri w s) = Ok arn ->
  (n < 40)%nat ->
  (forall i, (i < n)%nat -> nonterminal (get_async_invoke w (polls_made s + i) arn)) ->
  get_async_invoke w (polls_made s + n) arn = Ok resp ->
  status resp = "Completed" ->
  list_objects_v2 w (s3_bucket w) (job_video_key w s) = Ok keys ->
  let run := create_video_with_nova_reel w video_prompt reference_image_s3 s in
  ((forall k, In k keys -> Py.endswith k ".mp4" = false) ->
   fst run = Raise (video_failure not_found_message)) /\
  (forall before k after,
     keys = before ++ k :: after ->
     (forall k', In k' before -> Py.endswith k' ".mp4" = false) ->
     Py.endswith k ".mp4" = true ->
     fst run = Ok (Locator.format (s3_bucket w) k)).
Proof.
  intros Hb Hg Hu Hs Hn Hq Hc Hst Hl run. unfold run.
  rewrite (create_video_completed _ _ _ _ _ _ _ _ _ _ Hb Hg Hu Hs Hn Hq Hc Hst Hl).
  split.
  - intros Hnone. now rewrite (first_mp4_none keys Hnone).
  - intros before k after -> Hbefore Hk.
    now rewrite (first_mp4_first before after k Hbefore Hk).
Qed.

Lemma completed_job_output_witness :
  fst (create_video_with_nova_reel (finishing_world ["out/manifest.json"]) "a car"
         sample_image initial_state)
    = Raise (video_failure not_found_message) /\
  fst (create_video_with_nova_reel
         (finishing_world ["out/manifest.json"; "out/output.mp4"; "out/copy.mp4"])
         "a car" sample_image initial_state)
    = Ok "s3://deb-banners/out/output.mp4".
Proof.
  split.
  - refine (proj1 (completed_job_output (finishing_world ["out/manifest.json"]) "a car"
             sample_image initial_state "deb-banners" "image" sample_arn 2 completed
             ["out/manifest.json"] _ _ _ _ _ _ _ _ _) _);
      try reflexivity.
    + lia.
    + intros i Hi. exists in_progress. cbn [polls_made initial_state Nat.add].
      destruct i as [|[|i]]; [| |lia]; repeat split; discriminate.
    + intros k [<-|[]]. reflexivity.
  - refine (proj2 (completed_job_output
             (finishing_world ["out/manifest.json"; "out/output.mp4"; "out/copy.mp4"])
             "a car" sample_image initial_state "deb-banners" "image" sample_arn 2
             completed ["out/manifest.json"; "out/output.mp4"; "out/copy.mp4"]
             _ _ _ _ _ _ _ _ _)
             ["out/manifest.json"] "out/output.mp4" ["out/copy.mp4"] _ _ _);
      try reflexivity.
    + lia.
    + intros i Hi. exists in_progress. cbn [polls_made initial_state Nat.add].
      destruct i as [|[|i]]; [| |lia]; repeat split; discriminate.
    + intros k [<-|[]]. reflexivity.
Defined.

(** C2, as the code has it.  A status query that raises ends the loop and
    the run at once: the runner raises the error of the query, wrapped by
    its handler, and the failed query is the last call it makes.  Nothing is
    retried. *)
Theorem poll_error_ends_run w video_prompt reference_image_s3 s bucket image arn n msg :
  Locator.bucket_of reference_image_s3 = Ok bucket ->
  get_object w bucket (Locator.key_of reference_image_s3) = Ok image ->
  unlink_denied w (job_tmp_file w s) = false ->
  start_async_invoke w
    (nova_reel_payload (truncated_prompt video_prompt) (b64encode w image))
    (job_output_uri w s) = Ok arn ->
  (n < 40)%nat ->
  (forall i, (i < n)%nat -> nonterminal (get_async_invoke w (polls_made s + i) arn)) ->
  get_async_invoke w (polls_made s + n) arn = Raise msg ->
  let payload := nova_reel_payload (truncated_prompt video_prompt) (b64encode w image) in
  let run := create_video_with_nova_reel w video_prompt reference_image_s3 s in
  fst run = Raise (video_failure msg) /\
  polls_made (snd run) = S (polls_made s + n) /\
  calls (snd run) =
    calls s ++ [EvGetObject bucket (Locator.key_of reference_image_s3);
                EvStartAsyncInvoke payload (job_output_uri w s)]
            ++ concat (replicate n [EvGetAsyncInvoke arn; EvSleep 15])
            ++ [EvGetAsyncInvoke arn].
Proof.
  intros Hb Hg Hu Hs Hn Hq Hr payload run. unfold run.
  rewrite (create_video_reaches_loop _ _ _ _ _ _ _ Hb Hg Hu Hs).
  unfold try_except.
  rewrite (poll_loop_waits w arn (job_video_key w s) n);
    [|intros i Hi; apply Hq; exact Hi | unfold poll_interval, max_wait_time; lia].
  rewrite (poll_loop_query_raises _ _ _ _ _ msg);
    [|unfold poll_interval, max_wait_time; lia | rewrite waited_polls; exact Hr].
  unfold raise. cbn [fst snd]. state_simpl.
  rewrite waited_polls, waited_calls. unfold submitted. cbn [calls polls_made].
  repeat split. rewrite <- !app_assoc. reflexivity.
Qed.

Lemma poll_error_ends_run_witness :
  fst (create_video_with_nova_reel flaky_world "a car" sample_image initial_state)
  = Raise (video_failure "ThrottlingException").
Proof.
  apply (poll_error_ends_run flaky_world "a car" sample_image initial_state
           "deb-banners" "image" sample_arn 0 "ThrottlingException");
    try reflexivity.
  - lia.
  - intros i Hi. lia.
Defined.

(** C2, as the claim has it, fails: in [flaky_world] the first status query
    raises once and the job is complete from the second query on, yet the
    run ends with the error of the first query and never asks again. *)
Lemma poll_error_not_retried :
  let run := create_video_with_nova_reel flaky_world "a car" sample_image initial_state in
  fst run = Raise "Failed to create video: ThrottlingException" /\
  polls_made (snd run) = 1%nat /\
  get_async_invoke flaky_world 1 sample_arn = Ok completed /\
  ~ retried_after_error flaky_world sample_arn initial_state (snd run).
Proof.
  intros run.
  assert (Hp : polls_made (snd run) = 1%nat) by (vm_compute; reflexivity).
  split; [vm_compute; reflexivity|].
  split; [exact Hp|].
  split; [reflexivity|].
  intros H. specialize (H 0%nat "ThrottlingException").
  rewrite Hp in H. cbn [polls_made initial_state] in H.
  assert (2 <= 1)%nat; [|lia].
  apply H; [lia | reflexivity].
Qed.

(** ** The Merge Stage: local temporary files *)

Section FileFacts.

Context (w : world) (F : gset string).

Lemma preserves_lift {A} (r : result A) : preserves F (lift r).
Proof. intros s H. exact H. Qed.

Lemma preserves_call {A} (e : event) (r : result A) : preserves F (call e r).
Proof. intros s H. exact H. Qed.

Lemma preserves_uuid4 : preserves F (uuid4 w).
Proof. intros s H. exact H. Qed.

Lemma preserves_named_temporary_file suffix : preserves F (named_temporary_file w suffix).
Proof. intros s H. unfold named_temporary_file. state_simpl. set_solver. Qed.

Lemma preserves_write_video v path : preserves F (write_video w v path).
Proof. intros s H. exact H. Qed.

Lemma raise_keeps_bind {A B} (m : M A) (k : A -> M B) :
  preserves F m -> (forall v, raise_keeps F (k v)) -> raise_keeps F (bind m k).
Proof.
  intros Hm Hk s msg s' HF. unfold bind.
  specialize (Hm s HF).
  destruct (m s) as [[v|e] s1] eqn:E; cbn [snd] in Hm.
  - intros Hrun. exact (Hk v s1 msg s' Hm Hrun).
  - intros Hrun. injection Hrun as _ <-. exact Hm.
Qed.

Lemma raise_keeps_never {A} (m : M A) : never_raises m -> raise_keeps F m.
Proof. intros Hm s msg s' _ Hrun. specialize (Hm s). rewrite Hrun in Hm. discriminate. Qed.

Lemma never_raises_ret {A} (v : A) : never_raises (ret v).
Proof. intros s. reflexivity. Qed.

Lemma never_raises_bind {A B} (m : M A) (k : A -> M B) :
  never_raises m -> (forall v, never_raises (k v)) -> never_raises (bind m k).
Proof.
  intros Hm Hk s. unfold bind. specialize (Hm s).
  destruct (m s) as [[v|e] s1]; [apply Hk | discriminate].
Qed.

Lemma never_raises_swallow {A} (m : M A) (v : A) :
  never_raises (try_except m (fun _ => ret v)).
Proof. intros s. unfold try_except. destruct (m s) as [[x|e] s1]; reflexivity. Qed.

(** The cleanup loop swallows whatever [os.unlink] raises. *)
Lemma never_raises_unlink_all files : never_raises (unlink_all w files).
Proof.
  induction files as [|f files IH]; [apply never_raises_ret|].
  apply never_raises_bind; [apply never_raises_swallow | intros _; exact IH].
Qed.

End FileFacts.

(** Whenever the body of [merge_video_and_audio] raises, whatever was on
    disk after the two temporary files were created is still there. *)
Lemma merge_body_keeps_on_raise w video_s3_path audio_s3_path s msg s' :
  merge_body w video_s3_path audio_s3_path s = (Raise msg, s') ->
  merge_video_file w s ∈ fs s' /\ merge_audio_file w s ∈ fs s'.
Proof.
  intros Hrun.
  set (F := ({[merge_video_file w s; merge_audio_file w s]} : gset string)).
  enough (HF : F ⊆ fs s') by (unfold F in HF; set_solver).
  unfold merge_body, bind at 1, named_temporary_file at 1 in Hrun.
  unfold bind at 1, named_temporary_file at 1 in Hrun. state_simpl.
  revert Hrun.
  match goal with
  | |- ?k ?s0 = _ -> _ => intros Hrun; assert (Hs0 : F ⊆ fs s0)
  end.
  { unfold F, merge_video_file, merge_audio_file. state_simpl. set_solver. }
  revert Hrun. apply raise_keeps_bind; [apply preserves_lift | intros video_bucket | exact Hs0].
  apply raise_keeps_bind; [apply preserves_call | intros _].
  apply raise_keeps_bind; [apply preserves_lift | intros audio_bucket].
  apply raise_keeps_bind; [apply preserves_call | intros _].
  apply raise_keeps_bind; [apply preserves_lift | intros V].
  apply raise_keeps_bind; [apply preserves_lift | intros A].
  apply raise_keeps_bind; [apply preserves_lift | intros audio_clip].
  apply raise_keeps_bind; [apply preserves_uuid4 | intros u].
  apply raise_keeps_bind; [apply preserves_named_temporary_file | intros final_file].
  apply raise_keeps_bind; [apply preserves_write_video | intros _].
  apply raise_keeps_bind; [apply preserves_call | intros _].
  apply raise_keeps_never.
  apply never_raises_bind; [apply never_raises_unlink_all | intros _; apply never_raises_ret].
Qed.

(** C1, what the code does.  Every call of [merge_video_and_audio] that
    raises leaves the downloaded video and the downloaded audio on the
    local disk: the files are created with [delete=False] and the only
    deletions stand at the end of the successful path. *)
Theorem merge_failure_leaves_temporaries w video_s3_path audio_s3_path s msg :
  fst (merge_video_and_audio w video_s3_path audio_s3_path s) = Raise msg ->
  merge_video_file w s ∈ fs (snd (merge_video_and_audio w video_s3_path audio_s3_path s)) /\
  merge_audio_file w s ∈ fs (snd (merge_video_and_audio w video_s3_path audio_s3_path s)).
Proof.
  unfold merge_video_and_audio, try_except.
  destruct (merge_body w video_s3_path audio_s3_path s) as [[v|e] s1] eqn:E.
  - discriminate.
  - intros _. unfold raise. cbn [snd].
    exact (merge_body_keeps_on_raise _ _ _ _ _ _ E).
Qed.

Lemma merge_failure_leaves_temporaries_witness :
  "/tmp/tmp0.mp4" ∈
    fs (snd (merge_video_and_audio missing_video_world sample_video sample_audio
               initial_state)) /\
  "/tmp/tmp1.mp3" ∈
    fs (snd (merge_video_and_audio missing_video_world sample_video sample_audio
               initial_state)).
Proof.
  apply (merge_failure_leaves_temporaries missing_video_world sample_video sample_audio
           initial_state
           (merge_failure
              "An error occurred (404) when calling the HeadObject operation: Not Found")).
  vm_compute. reflexivity.
Defined.

(** The same at two concrete failures: a video locator whose object is
    missing leaves two files behind, an encoder error leaves all three. *)
Lemma merge_leak_examples :
  let missing := merge_video_and_audio missing_video_world sample_video sample_audio
                   initial_state in
  let broken := merge_video_and_audio broken_encoder_world sample_video sample_audio
                   initial_state in
  fst missing = Raise (merge_failure
    "An error occurred (404) when calling the HeadObject operation: Not Found") /\
  fs (snd missing) = {["/tmp/tmp0.mp4"; "/tmp/tmp1.mp3"]} /\
  fst broken = Raise (merge_failure "ffmpeg returned an error") /\
  fs (snd broken) = {["/tmp/tmp0.mp4"; "/tmp/tmp1.mp3"; "/tmp/tmp2.mp4"]}.
Proof.
  repeat split; vm_compute; reflexivity.
Qed.

(** *** The sibling: the [finally] block of the script's merge step *)

Lemma remove_if_exists_spec w f s :
  unlink_denied w f = false ->
  fs (snd (try_except (Script.remove_if_exists w f) (fun _ => ret tt) s)) = fs s ∖ {[f]} /\
  fst (try_except (Script.remove_if_exists w f) (fun _ => ret tt) s) = Ok tt.
Proof.
  intros Hd. unfold try_except, Script.remove_if_exists, os_unlink.
  destruct (bool_decide (f ∈ fs s)) eqn:E.
  - rewrite Hd. state_simpl. split; reflexivity.
  - cbn [fst snd]. apply bool_decide_eq_false in E. split; [set_solver | reflexivity].
Qed.

Lemma cleanup_spec w files : forall s,
  (forall f, In f files -> unlink_denied w f = false) ->
  fst (Script.cleanup w files s) = Ok tt /\
  fs (snd (Script.cleanup w files s)) ⊆ fs s /\
  (forall f, In f files -> f ∉ fs (snd (Script.cleanup w files s))).
Proof.
  induction files as [|f files IH]; intros s Hd.
  - cbn. repeat split; [set_solver | intros f []].
  - cbn [Script.cleanup]. unfold bind.
    destruct (remove_if_exists_spec w f s (Hd f (or_introl eq_refl))) as [Hfs Hok].
    destruct (try_except (Script.remove_if_exists w f) (fun _ => ret tt) s)
      as [[[]|e] s1]; cbn [fst snd] in *; [|discriminate].
    destruct (IH s1 (fun g Hg => Hd g (or_intror Hg))) as (Hok' & Hsub & Hgone).
    split; [exact Hok'|]. split; [set_solver|].
    intros g [<-|Hg]; [set_solver | now apply Hgone].
Qed.

(** The script's merge step deletes its three local files on every exit,
    whether its body returned or raised. *)
Lemma script_merge_cleans_up w video_arn audio_s3_key s :
  let unique_id := Py.take 8 (uuid4_hex w (uuids_drawn s)) in
  let files := [Script.video_file_of unique_id; Script.audio_file_of unique_id;
                Script.output_file_of unique_id] in
  (forall f, In f files -> unlink_denied w f = false) ->
  forall f, In f files -> f ∉ fs (snd (Script.merge_step w video_arn audio_s3_key s)).
Proof.
  intros unique_id files Hd f Hf.
  unfold Script.merge_step, bind at 1, uuid4 at 1. fold unique_id.
  unfold bind at 1, try_finally. fold files.
  destruct (Script.merge_try w (Script.last_piece video_arn) audio_s3_key unique_id
              (next_uuid s)) as [r s1].
  destruct (cleanup_spec w files s1 Hd) as (Hok & _ & Hgone).
  specialize (Hgone f Hf).
  destruct (Script.cleanup w files s1) as [[[]|e] s2]; cbn [fst snd] in *; [|discriminate].
  destruct r; exact Hgone.
Qed.

(** ** The Merge Stage: durations *)

Section DurationFacts.

Local Open Scope Q_scope.











End DurationFacts.




(** The two cases of the specification, evaluated: three copies of the
    2.5-second audio are concatenated before the cut to 6 seconds. *)
Lemma merge_duration_examples :
  adjust_audio {| video_duration := 6; video_audio := None |} (AudioSource 9)
    = Ok (AudioSubclip (AudioSource 9) 0%Q 6) /\
  adjust_audio {| video_duration := 6; video_audio := None |} (AudioSource (5 # 2))
    = Ok (AudioSubclip (AudioConcat (replicate 3 (AudioSource (5 # 2)))) 0%Q 6).
Proof. split; vm_compute; reflexivity. Qed.


(** ** The Pipeline Driver *)

Lemma bind_inv_ok {A B} (m : M A) (k : A -> M B) s v s' :
  bind m k s = (Ok v, s') ->
  exists x s1, m s = (Ok x, s1) /\ k x s1 = (Ok v, s').
Proof.
  unfold bind. destruct (m s) as [[x|e] s1]; [|discriminate].
  intros H. now exists x, s1.
Qed.

Lemma bind_inv_raise {A B} (m : M A) (k : A -> M B) s e s' :
  bind m k s = (Raise e, s') ->
  m s = (Raise e, s') \/ exists x s1, m s = (Ok x, s1) /\ k x s1 = (Raise e, s').
Proof.
  unfold bind. destruct (m s) as [[x|e0] s1]; intros H.
  - right. now exists x, s1.
  - left. injection H as -> ->. reflexivity.
Qed.

Lemma lift_inv {A} (r x : result A) s s' : lift r s = (x, s') -> r = x /\ s' = s.
Proof. unfold lift. now intros [= -> ->]. Qed.





(** Take a hypothesis about a step apart into the outcomes of its parts. *)
Ltac step_inv :=
  repeat match goal with
  | H : bind _ _ _ = (Ok _, _) |- _ =>
      apply bind_inv_ok in H; destruct H as (? & ? & ? & ?)
  | H : bind _ _ _ = (Raise _, _) |- _ =>
      apply bind_inv_raise in H; destruct H as [?|(? & ? & ? & ?)]
  | H : lift _ _ = (_, _) |- _ =>
      apply lift_inv in H; destruct H as [? ?]; subst
  end.







(** ** The strategy generator *)

(** On an object, the validation of the keys is key presence, for each of
    the three keys. *)
Lemma all_keys_in_object fields :
  all_keys_in required_keys (JObj fields) = Ok true <->
  Forall (fun k => is_Some (dict_get k fields)) required_keys.
Proof.
  unfold required_keys. cbn [all_keys_in py_in].
  split.
  - intros H.
    repeat match type of H with
    | context [bool_decide (is_Some ?o)] =>
        destruct (bool_decide_reflect (is_Some o)); [|discriminate H]
    end.
    repeat constructor; assumption.
  - intros H. inversion_clear H as [|? ? H1 H']. inversion_clear H' as [|? ? H2 H''].
    inversion_clear H'' as [|? ? H3 _].
    rewrite !bool_decide_eq_true_2 by assumption. reflexivity.
Qed.

(** The three fields of the fallback are non-empty, whatever the
    description. *)
Lemma fallback_strategy_valid ad_description :
  valid_strategy (fallback_strategy ad_description).
Proof.
  unfold valid_strategy, required_keys, fallback_strategy.
  repeat constructor; eexists; (split; [vm_compute; reflexivity|]);
    cbn; discriminate.
Qed.

(** [_parse_strategy_from_response] answers the decoded value when it has
    the three keys, and the fallback otherwise. *)
Lemma parse_strategy_from_response_cases w response_text ad_description :
  AgentApp.parse_strategy_from_response w response_text ad_description
    = fallback_strategy ad_description \/
  all_keys_in required_keys
    (AgentApp.parse_strategy_from_response w response_text ad_description) = Ok true.
Proof.
  unfold AgentApp.parse_strategy_from_response.
  destruct (_ && _); [|now left].
  destruct (json_loads w _) as [v|e]; [|now left].
  destruct (all_keys_in required_keys v) as [[|]|] eqn:Hk; auto.
Qed.

(** C4, as the code has it.  [generate_content_strategy] never raises and
    makes one call of the text model.  It returns the fallback when that
    call fails, when the decoder rejects the extracted text, and when the
    decoded value fails the validation of the keys; otherwise it returns
    the decoded value as it is.  The validation is the presence of the
    three keys and says nothing on their values; the three fields of the
    fallback are non-empty. *)
Theorem strategy_never_fails w ad_description s :
  let run := generate_content_strategy w ad_description s in
  let answer := invoke_model w "us.amazon.nova-lite-v1:0" (strategy_prompt ad_description) in
  (exists v,
     run = (Ok v, with_calls (fun l => l ++ [strategy_call ad_description]) s)) /\
  (forall e, answer = Raise e -> fst run = Ok (fallback_strategy ad_description)) /\
  (forall content e,
     answer = Ok content ->
     json_loads w (extracted_json content) = Raise e ->
     fst run = Ok (fallback_strategy ad_description)) /\
  (forall content v,
     answer = Ok content ->
     json_loads w (extracted_json content) = Ok v ->
     all_keys_in required_keys v <> Ok true ->
     fst run = Ok (fallback_strategy ad_description)) /\
  (forall content v,
     answer = Ok content ->
     json_loads w (extracted_json content) = Ok v ->
     all_keys_in required_keys v = Ok true ->
     fst run = Ok v) /\
  (forall fields,
     all_keys_in required_keys (JObj fields) = Ok true <->
     Forall (fun k => is_Some (dict_get k fields)) required_keys) /\
  valid_strategy (fallback_strategy ad_description).
Proof.
  intros run answer.
  assert (Hrun : run =
    match answer with
    | Ok content =>
        match json_loads w (extracted_json content) with
        | Ok v =>
            match all_keys_in required_keys v with
            | Ok true => (Ok v, with_calls (fun l => l ++ [strategy_call ad_description]) s)
            | _ => (Ok (fallback_strategy ad_description),
                    with_calls (fun l => l ++ [strategy_call ad_description]) s)
            end
        | Raise _ => (Ok (fallback_strategy ad_description),
                      with_calls (fun l => l ++ [strategy_call ad_description]) s)
        end
    | Raise _ => (Ok (fallback_strategy ad_description),
                  with_calls (fun l => l ++ [strategy_call ad_description]) s)
    end).
  { subst run answer.
    unfold generate_content_strategy, try_except, strategy_body, bind, call, lift,
      ret, raise, extracted_json, strategy_call.
    destruct (invoke_model w _ _) as [content|e]; [|reflexivity].
    destruct (json_loads w _) as [v|e]; [|reflexivity].
    destruct (all_keys_in required_keys v) as [[|]|]; reflexivity. }
  repeat apply conj.
  - rewrite Hrun. destruct answer as [content|e]; [|eauto].
    destruct (json_loads w _) as [v|e]; [|eauto].
    destruct (all_keys_in required_keys v) as [[|]|]; eauto.
  - intros e He. rewrite Hrun, He. reflexivity.
  - intros content e Ha Hd. rewrite Hrun, Ha, Hd. reflexivity.
  - intros content v Ha Hd Hk. rewrite Hrun, Ha, Hd.
    destruct (all_keys_in required_keys v) as [[|]|]; [contradiction| |]; reflexivity.
  - intros content v Ha Hd Hk. rewrite Hrun, Ha, Hd, Hk. reflexivity.
  - apply all_keys_in_object.
  - apply fallback_strategy_valid.
Qed.

(** Two runs: the model call is refused and the fallback comes back; the
    model answers with a complete object and that object comes back. *)
Lemma strategy_never_fails_witness :
  fst (generate_content_strategy stuck_world "a car" initial_state)
    = Ok (fallback_strategy "a car") /\
  fst (generate_content_strategy car_strategy_world "a car" initial_state)
    = Ok car_strategy.
Proof.
  split.
  - apply (proj1 (proj2 (strategy_never_fails stuck_world "a car" initial_state))
             "AccessDeniedException").
    reflexivity.
  - apply (proj1 (proj2 (proj2 (proj2 (proj2
             (strategy_never_fails car_strategy_world "a car" initial_state)))))
             ("Here is the strategy: " +:+
              strategy_text "A red car on a coastal road" "The car drives along the coast"
                            "Drive the coast. Feel the road." +:+ " Enjoy.")).
    + reflexivity.
    + vm_compute. reflexivity.
    + vm_compute. reflexivity.
Defined.

(** C4, as the claim has it, fails: the model answers with the three keys
    and empty values, the answer passes the validation, and the strategy
    returned has three empty fields. *)
Lemma strategy_accepts_empty_fields :
  let run := generate_content_strategy blank_strategy_world "a car" initial_state in
  fst run = Ok blank_strategy /\
  (forall key, In key required_keys -> field blank_strategy key = Ok EmptyString) /\
  ~ valid_strategy blank_strategy.
Proof.
  intros run.
  split; [vm_compute; reflexivity|].
  split.
  - intros key [<-|[<-|[<-|[]]]]; vm_compute; reflexivity.
  - intros H. inversion_clear H as [|? ? [s0 [H1 H2]] _].
    vm_compute in H1. injection H1 as <-. now apply H2.
Qed.

(** ** Storage keys *)

Section KeyLogFacts.

Context (P : event -> Prop).

(** After [uuid4] the rest runs on an identifier of the world. *)
Lemma logs_bind_uuid4 {B} w (k : string -> M B) :
  (forall i, logs P (k (uuid4_hex w i))) -> logs P (bind (uuid4 w) k).
Proof.
  intros Hk s. unfold bind, uuid4.
  destruct (Hk (uuids_drawn s) (next_uuid s)) as (l & E & F).
  exists l. split; [exact E | exact F].
Qed.

Lemma logs_agent_call w prompt : P (EvAgent prompt) -> logs P (agent_call w prompt).
Proof.
  intros He s. exists [EvAgent prompt].
  split; [reflexivity | repeat constructor; exact He].
Qed.


Lemma logs_path_or_call response_text (direct : M string) :
  logs P direct -> logs P (AgentApp.path_or_call response_text direct).
Proof.
  intros Hd. unfold AgentApp.path_or_call.
  destruct (AgentApp.parse_s3_path_from_response response_text) as [p|]; [|exact Hd].
  destruct (String.eqb p ""); [exact Hd | apply logs_ret].
Qed.


End KeyLogFacts.



(** *** The tools write under identifiers *)

Ltac keyed_event :=
  lazymatch goal with
  | |- uuid_keyed _ (EvPutObject _ _ _) =>
      cbn [uuid_keyed]; unfold uuid_key, image_key_of, audio_key_of, final_key_of;
      eexists; eauto
  | |- uuid_keyed _ (EvStartAsyncInvoke _ _) =>
      cbn [uuid_keyed]; unfold uuid_output, job_output_of; eexists; reflexivity
  | |- uuid_keyed _ _ => exact I
  end.

Ltac keyed_step :=
  first
    [ apply logs_ret | apply logs_raise | apply logs_lift
    | apply logs_named_temporary_file | apply logs_os_unlink | apply logs_unlink_all
    | apply logs_try_except; [|intros ?]
    | apply logs_bind_uuid4; intros ?
    | apply logs_bind; [|intros ?]
    | apply logs_call; keyed_event
    | apply logs_agent_call; keyed_event ].


Lemma image_keyed w image_prompt :
  logs (uuid_keyed w) (create_reference_image w image_prompt).
Proof. unfold create_reference_image. repeat keyed_step. Qed.

Lemma video_keyed w video_prompt reference_image_s3 :
  logs (uuid_keyed w) (create_video_with_nova_reel w video_prompt reference_image_s3).
Proof.
  unfold create_video_with_nova_reel.
  repeat keyed_step.
  match goal with
  | |- logs _ (poll_loop _ ?arn ?key _) =>
      apply (logs_poll_loop _ w arn key I I I (remaining 0) 0); lia
  end.
Qed.

Lemma audio_keyed w audio_script :
  logs (uuid_keyed w) (create_voiceover_audio w audio_script).
Proof. unfold create_voiceover_audio. repeat keyed_step. Qed.

Lemma merge_keyed w video_s3_path audio_s3_path :
  logs (uuid_keyed w) (merge_video_and_audio w video_s3_path audio_s3_path).
Proof.
  unfold merge_video_and_audio, merge_body, write_video. repeat keyed_step.
Qed.


Lemma agent_driver_keyed w ad_description :
  logs (uuid_keyed w) (AgentApp.create_video_ad w ad_description).
Proof.
  unfold AgentApp.create_video_ad, AgentApp.step_strategy, AgentApp.step_image,
    AgentApp.step_video, AgentApp.step_audio, AgentApp.step_merge.
  repeat first
    [ apply logs_path_or_call
    | apply image_keyed | apply video_keyed | apply audio_keyed | apply merge_keyed
    | keyed_step ].
Qed.

(** *** Keys of different identifiers differ *)







(** ** More on locators *)

Lemma split_length (c : ascii) (s : string) :
  length (Py.split c s) = S (count_char c s).
Proof.
  induction s as [|a s IH]; [reflexivity|].
  cbn [Py.split count_char].
  destruct (Ascii.eqb a c).
  - cbn [length]. rewrite IH. reflexivity.
  - pose proof (split_nonempty c s) as Hne.
    destruct (Py.split c s) as [|w ws]; [contradiction|].
    cbn [length] in *. rewrite IH. reflexivity.
Qed.

Lemma count_char_app (c : ascii) (a b : string) :
  count_char c (a +:+ b) = (count_char c a + count_char c b)%nat.
Proof.
  induction a as [|x a IH]; [reflexivity|].
  cbn [String.append count_char]. rewrite IH. lia.
Qed.

Lemma count_char_none (c : ascii) (s : string) :
  count_char c s = 0%nat <-> Py.contains_char c s = false.
Proof.
  induction s as [|a s IH]; [split; reflexivity|].
  cbn [count_char Py.contains_char].
  destruct (Ascii.eqb a c); cbn [orb]; [split; [lia | discriminate]|].
  exact IH.
Qed.

Lemma startswith_prefix (s p : string) :
  Py.startswith s p = true <-> exists rest, s = p +:+ rest.
Proof.
  revert s. induction p as [|b p IH]; intros s.
  - destruct s; (split; [intros _; eexists; reflexivity | reflexivity]).
  - destruct s as [|a s]; cbn [Py.startswith].
    + split; [discriminate | intros [rest H]; discriminate H].
    + split.
      * intros H. apply andb_prop in H as [Ha Hs].
        apply Ascii.eqb_eq in Ha as ->. apply IH in Hs as [rest ->].
        exists rest. reflexivity.
      * intros [rest H]. injection H as -> ->.
        rewrite Ascii.eqb_refl. apply IH. eauto.
Qed.

(** The two halves of parsing on a formatted locator. *)
Lemma bucket_key_of_format (bucket key : string) :
  Py.contains_char "/" bucket = false ->
  Locator.bucket_of (Locator.format bucket key) = Ok bucket /\
  Locator.key_of (Locator.format bucket key) = key.
Proof.
  intros Hb. unfold Locator.bucket_of, Locator.key_of, Py.list_from.
  rewrite (split_format bucket key Hb).
  change (drop 3 ("s3:" :: "" :: bucket :: Py.split "/" key)) with (Py.split "/" key).
  rewrite (join_split "/" key). split; reflexivity.
Qed.

(** [path.split('/')[2]] raises [IndexError] exactly on a path with fewer
    than two slashes, and answers on every other one; the key of a path
    with fewer than three slashes is empty. *)
Theorem bucket_of_index_error (path : string) :
  (Locator.bucket_of path = Raise "list index out of range" <->
   (count_char "/" path < 2)%nat) /\
  ((exists bucket, Locator.bucket_of path = Ok bucket) <->
   (2 <= count_char "/" path)%nat) /\
  ((count_char "/" path < 3)%nat -> Locator.key_of path = "").
Proof.
  pose proof (split_length "/" path) as Hlen.
  unfold Locator.bucket_of, Locator.key_of, Py.list_from.
  destruct (Py.split "/" path) as [|x0 [|x1 [|x2 rest]]]; cbn [length] in Hlen;
    cbn [lookup list_lookup drop].
  - discriminate Hlen.
  - repeat split; try (intros; lia); try reflexivity.
    intros [b H]; discriminate H.
  - repeat split; try (intros; lia); try reflexivity.
    intros [b H]; discriminate H.
  - repeat split; try (intros; lia); try discriminate; eauto.
    intros H. destruct rest; [reflexivity | cbn [length] in Hlen; lia].
Qed.

(** Formatting is a right inverse of parsing on the paths that look like
    locators: a path that starts with [s3://] and has a slash after the
    bucket is given back by [format] from its parsed bucket and key. *)
Theorem locator_format_parse (path : string) :
  Py.startswith path "s3://" = true ->
  (3 <= count_char "/" path)%nat ->
  exists bucket key,
    Locator.parse path = Ok (bucket, key) /\
    Locator.format bucket key = path.
Proof.
  intros Hp Hc. apply startswith_prefix in Hp as [rest ->].
  change ("s3://" +:+ rest) with ("s3:" +:+ String "/" ("" +:+ String "/" rest)) in *.
  assert (Hrest : (1 <= count_char "/" rest)%nat).
  { rewrite count_char_app in Hc. cbn in Hc. cbn. lia. }
  unfold Locator.parse, Locator.bucket_of, Locator.key_of, Py.list_from.
  rewrite split_first_piece by reflexivity.
  rewrite split_first_piece by reflexivity.
  pose proof (split_length "/" rest) as Hlen.
  pose proof (join_split "/" rest) as Hjoin.
  destruct (Py.split "/" rest) as [|b [|k ks]]; cbn [length] in Hlen; [lia | lia |].
  cbn [lookup list_lookup drop].
  exists b, (Py.join "/" (k :: ks)). split; [reflexivity|].
  unfold Locator.format. rewrite <- Hjoin. reflexivity.
Qed.

Lemma locator_format_parse_witness :
  exists bucket key,
    Locator.parse "s3://deb-banners/final_videos/ad_0f.mp4" = Ok (bucket, key) /\
    Locator.format bucket key = "s3://deb-banners/final_videos/ad_0f.mp4".
Proof.
  apply (locator_format_parse "s3://deb-banners/final_videos/ad_0f.mp4").
  - reflexivity.
  - vm_compute. lia.
Defined.

(** ** What a run costs *)

Section CostFacts.

Context (f : event -> Z).

Lemma total_app (l1 l2 : list event) : total f (l1 ++ l2) = total f l1 + total f l2.
Proof.
  unfold total. induction l1 as [|e l1 IH]; cbn [app fold_right]; [reflexivity|].
  rewrite IH. lia.
Qed.

Lemma costs_weaken {A} (m : M A) a b : costs f a m -> a <= b -> costs f b m.
Proof. intros Hm Hab s. destruct (Hm s) as (l & E & Hl). exists l. split; [exact E | lia]. Qed.

Lemma costs_silent {A} (m : M A) n :
  (forall s, calls (snd (m s)) = calls s) -> 0 <= n -> costs f n m.
Proof. intros H Hn s. exists []. rewrite H, app_nil_r. split; [reflexivity | exact Hn]. Qed.

Lemma costs_call {A} (e : event) (r : result A) n : f e <= n -> costs f n (call e r).
Proof. intros He s. exists [e]. split; [reflexivity | cbn; lia]. Qed.

Lemma costs_bind {A B} (m : M A) (k : A -> M B) a b :
  costs f a m -> (forall v, costs f b (k v)) -> 0 <= b -> costs f (a + b) (bind m k).
Proof.
  intros Hm Hk Hb s. unfold bind.
  destruct (Hm s) as (l1 & E1 & F1).
  destruct (m s) as [[v|e] s1]; cbn [snd] in *.
  - destruct (Hk v s1) as (l2 & E2 & F2).
    exists (l1 ++ l2). rewrite E2, E1, app_assoc, total_app. split; [reflexivity | lia].
  - exists l1. split; [exact E1 | lia].
Qed.

(** The two shapes in which steps are chained below: a free step, then
    the rest; a step, then a free rest. *)
Lemma costs_after_free {A B} (m : M A) (k : A -> M B) n :
  costs f 0 m -> (forall v, costs f n (k v)) -> 0 <= n -> costs f n (bind m k).
Proof. intros Hm Hk Hn. apply (costs_bind m k 0 n Hm Hk Hn). Qed.

Lemma costs_then_free {A B} (m : M A) (k : A -> M B) n :
  costs f n m -> (forall v, costs f 0 (k v)) -> costs f n (bind m k).
Proof.
  intros Hm Hk. apply (costs_weaken _ (n + 0)); [|lia].
  apply costs_bind; [exact Hm | exact Hk | lia].
Qed.

Lemma costs_try_except {A} (m : M A) (h : string -> M A) n :
  costs f n m -> (forall e, costs f 0 (h e)) -> costs f n (try_except m h).
Proof.
  intros Hm Hh s. unfold try_except.
  destruct (Hm s) as (l1 & E1 & F1).
  destruct (m s) as [[v|e] s1]; cbn [snd] in *.
  - exists l1. split; assumption.
  - destruct (Hh e s1) as (l2 & E2 & F2).
    exists (l1 ++ l2). rewrite E2, E1, app_assoc, total_app. split; [reflexivity | lia].
Qed.

Lemma costs_run_log {A} (m : M A) n s : costs f n m -> total f (run_log m s) <= n.
Proof.
  intros Hm. destruct (Hm s) as (l & E & Hl).
  unfold run_log. rewrite E, drop_app_length. exact Hl.
Qed.

(** The poll loop, when a status query costs [q], a sleep [sl] and the
    listing [ls]: [n] rounds are enough for what is left of the ceiling. *)
Lemma costs_poll_loop w arn key q sl ls :
  f (EvGetAsyncInvoke arn) = q -> f (EvSleep poll_interval) = sl ->
  f (EvListObjects (s3_bucket w) key) = ls ->
  0 <= q -> 0 <= sl -> 0 <= ls ->
  forall n e, max_wait_time - e <= poll_interval * Z.of_nat n ->
    costs f (Z.of_nat n * (q + sl) + ls) (poll_loop w arn key e).
Proof.
  intros Hq Hsl Hls Hq0 Hsl0 Hls0. induction n as [|n IH]; intros e Hn s.
  - rewrite poll_loop_timeout by (unfold poll_interval in Hn; lia).
    exists []. rewrite app_nil_r. split; [reflexivity | cbn; lia].
  - destruct (Z_lt_dec e max_wait_time) as [Hlt|Hge].
    + revert s. rewrite poll_loop_equation_1.
      destruct (Z_lt_dec e max_wait_time) as [Hlt2|]; [|lia]. simpl.
      assert (Hnext : costs f (sl + (Z.of_nat n * (q + sl) + ls))
                (sleep poll_interval ;;;
                 poll_loop w arn key (e + poll_interval))%run).
      { apply costs_bind; [apply costs_call; lia | intros _ | nia].
        apply IH. unfold poll_interval in *. lia. }
      apply (costs_weaken _ (q + (sl + (Z.of_nat n * (q + sl) + ls)))); [|nia].
      apply costs_bind; [|intros resp|nia].
      { intros s. exists [EvGetAsyncInvoke arn]. split; [reflexivity | cbn; lia]. }
      destruct (String.eqb (status resp) "Completed").
      { unfold locate_video. apply (costs_weaken _ (ls + 0)); [|nia].
        apply costs_bind; [apply costs_call; lia | intros keys | lia].
        destruct (first_mp4 keys); apply costs_silent; (reflexivity || lia). }
      destruct (String.eqb (status resp) "Failed");
        [apply costs_silent; [reflexivity | nia]|].
      destruct (String.eqb (status resp) "InProgress" || String.eqb (status resp) "Submitted");
        exact Hnext.
    + rewrite poll_loop_timeout by lia.
      exists []. rewrite app_nil_r. split; [reflexivity | cbn; nia].
Qed.

End CostFacts.

Lemma total_sleep_cost (l : list event) : total sleep_cost l = slept l.
Proof.
  induction l as [|e l IH]; [reflexivity|].
  destruct e; cbn [total fold_right sleep_cost slept] in *; fold (total sleep_cost l);
    rewrite IH; lia.
Qed.

(** The steps of [create_video_with_nova_reel] before the poll loop cost
    nothing of a cost that is zero on fetches. *)
Lemma costs_video_run f w video_prompt reference_image_s3 a b :
  (forall bucket key, f (EvGetObject bucket key) = 0) ->
  (forall payload uri, f (EvStartAsyncInvoke payload uri) = a) ->
  (forall arn key, costs f b (poll_loop w arn key 0)) ->
  0 <= a -> 0 <= b ->
  costs f (a + b) (create_video_with_nova_reel w video_prompt reference_image_s3).
Proof.
  intros Hget Hstart Hloop Ha Hb.
  unfold create_video_with_nova_reel.
  apply costs_try_except; [|intros e; apply costs_silent; [reflexivity | lia]].
  apply costs_after_free; [apply costs_silent; [reflexivity | lia] | intros _ | lia].
  apply costs_after_free; [apply costs_silent; [reflexivity | lia] | intros bucket | lia].
  apply costs_after_free; [apply costs_silent; [reflexivity | lia] | intros tmp | lia].
  apply costs_after_free; [apply costs_call; rewrite Hget; lia | intros image | lia].
  apply costs_after_free; [|intros _|lia].
  { apply costs_silent; [|lia]. intros s. unfold os_unlink.
    destruct (bool_decide (tmp ∈ fs s)); [destruct (unlink_denied w tmp)|]; reflexivity. }
  apply costs_after_free; [apply costs_silent; [reflexivity | lia] | intros u | lia].
  apply costs_bind; [apply costs_call; rewrite Hstart; lia | intros arn | exact Hb].
  apply Hloop.
Qed.

(** In every world, a call of [create_video_with_nova_reel] submits at
    most one job, asks for its status at most 40 times and sleeps at most
    600 seconds. *)
Theorem video_run_budget w video_prompt reference_image_s3 s :
  let l := run_log (create_video_with_nova_reel w video_prompt reference_image_s3) s in
  total submission_cost l <= 1 /\
  total query_cost l <= 40 /\
  slept l <= 600.
Proof.
  intros l. unfold l. rewrite <- total_sleep_cost.
  split; [|split]; apply costs_run_log.
  - apply (costs_video_run submission_cost w _ _ 1 0); try reflexivity; try lia.
    intros arn key.
    apply (costs_poll_loop submission_cost w arn key 0 0 0
             eq_refl eq_refl eq_refl ltac:(lia) ltac:(lia) ltac:(lia) 40 0).
    unfold max_wait_time, poll_interval. lia.
  - apply (costs_video_run query_cost w _ _ 0 40); try reflexivity; try lia.
    intros arn key.
    apply (costs_poll_loop query_cost w arn key 1 0 0
             eq_refl eq_refl eq_refl ltac:(lia) ltac:(lia) ltac:(lia) 40 0).
    unfold max_wait_time, poll_interval. lia.
  - apply (costs_video_run sleep_cost w _ _ 0 600); try reflexivity; try lia.
    intros arn key.
    apply (costs_poll_loop sleep_cost w arn key 0 15 0
             eq_refl eq_refl eq_refl ltac:(lia) ltac:(lia) ltac:(lia) 40 0).
    unfold max_wait_time, poll_interval. lia.
Qed.

Lemma total_rounds f (round : list event) (n : nat) :
  total f (concat (replicate n round)) = Z.of_nat n * total f round.
Proof.
  induction n as [|n IH]; [reflexivity|].
  cbn [replicate concat]. rewrite total_app, IH. lia.
Qed.

(** The log of the run whose job is reported [Failed] at its [n]-th
    query. *)
Lemma failed_run w video_prompt reference_image_s3 s bucket image arn n resp :
  Locator.bucket_of reference_image_s3 = Ok bucket ->
  get_object w bucket (Locator.key_of reference_image_s3) = Ok image ->
  unlink_denied w (job_tmp_file w s) = false ->
  start_async_invoke w
    (nova_reel_payload (truncated_prompt video_prompt) (b64encode w image))
    (job_output_uri w s) = Ok arn ->
  (n < 40)%nat ->
  (forall i, (i < n)%nat -> nonterminal (get_async_invoke w (polls_made s + i) arn)) ->
  get_async_invoke w (polls_made s + n) arn = Ok resp ->
  status resp = "Failed" ->
  fst (create_video_with_nova_reel w video_prompt reference_image_s3 s) =
    Raise (video_failure (job_failed_message (default "Unknown error" (failureMessage resp)))) /\
  run_log (create_video_with_nova_reel w video_prompt reference_image_s3) s =
    [EvGetObject bucket (Locator.key_of reference_image_s3);
     EvStartAsyncInvoke (nova_reel_payload (truncated_prompt video_prompt) (b64encode w image))
                        (job_output_uri w s)] ++
    concat (replicate n [EvGetAsyncInvoke arn; EvSleep poll_interval]) ++
    [EvGetAsyncInvoke arn].
Proof.
  intros Hb Hg Hu Hs Hn Hq Hc Hst.
  unfold run_log.
  rewrite (create_video_reaches_loop _ _ _ _ _ _ _ Hb Hg Hu Hs).
  unfold try_except.
  rewrite (poll_loop_waits w arn (job_video_key w s) n);
    [|intros i Hi; apply Hq; exact Hi | unfold poll_interval, max_wait_time; lia].
  rewrite (poll_loop_failed _ _ _ _ _ resp);
    [|unfold poll_interval, max_wait_time; lia
     |rewrite waited_polls; exact Hc | exact Hst].
  unfold raise. cbn [fst snd]. split; [reflexivity|].
  unfold with_calls, next_poll. cbn [calls]. rewrite waited_calls. unfold submitted. cbn [calls].
  rewrite <- !app_assoc. rewrite drop_app_length. reflexivity.
Qed.

(** A job reported [Failed] ends the run with the service's message, or
    with [Unknown error] when the answer carries none.  The run has made
    one status query more than it has slept rounds and has not listed the
    output prefix. *)
Theorem failed_job_error w video_prompt reference_image_s3 s bucket image arn n resp :
  Locator.bucket_of reference_image_s3 = Ok bucket ->
  get_object w bucket (Locator.key_of reference_image_s3) = Ok image ->
  unlink_denied w (job_tmp_file w s) = false ->
  start_async_invoke w
    (nova_reel_payload (truncated_prompt video_prompt) (b64encode w image))
    (job_output_uri w s) = Ok arn ->
  (n < 40)%nat ->
  (forall i, (i < n)%nat -> nonterminal (get_async_invoke w (polls_made s + i) arn)) ->
  get_async_invoke w (polls_made s + n) arn = Ok resp ->
  status resp = "Failed" ->
  let run := create_video_with_nova_reel w video_prompt reference_image_s3 in
  fst (run s) =
    Raise ("Failed to create video: Video generation failed: " +:+
           default "Unknown error" (failureMessage resp)) /\
  total query_cost (run_log run s) = Z.of_nat n + 1 /\
  slept (run_log run s) = 15 * Z.of_nat n /\
  total listing_cost (run_log run s) = 0.
Proof.
  intros Hb Hg Hu Hs Hn Hq Hc Hst run.
  destruct (failed_run _ _ _ _ _ _ _ _ _ Hb Hg Hu Hs Hn Hq Hc Hst) as [Hr Hl].
  unfold run. rewrite Hl, <- total_sleep_cost.
  split; [exact Hr|].
  rewrite !total_app, !total_rounds. unfold total, poll_interval.
  cbn [fold_right query_cost sleep_cost listing_cost]. repeat split; lia.
Qed.

Lemma failed_job_error_witness :
  fst (create_video_with_nova_reel failing_job_world "a car" sample_image initial_state) =
    Raise "Failed to create video: Video generation failed: Unknown error" /\
  total query_cost
    (run_log (create_video_with_nova_reel failing_job_world "a car" sample_image)
             initial_state) = 3 /\
  slept (run_log (create_video_with_nova_reel failing_job_world "a car" sample_image)
                 initial_state) = 30 /\
  total listing_cost
    (run_log (create_video_with_nova_reel failing_job_world "a car" sample_image)
             initial_state) = 0.
Proof.
  apply (failed_job_error failing_job_world "a car" sample_image initial_state
           "deb-banners" "image" sample_arn 2 failed_without_message).
  - reflexivity.
  - reflexivity.
  - reflexivity.
  - reflexivity.
  - lia.
  - intros i Hi. exists in_progress.
    assert (Hi' : i = 0%nat \/ i = 1%nat) by lia.
    destruct Hi' as [-> | ->]; (split; [reflexivity | split; discriminate]).
  - reflexivity.
  - reflexivity.
Defined.

(** *** The temporary copy of the reference image *)

Lemma keeps_files_bind {A B} (m : M A) (k : A -> M B) :
  keeps_files m -> (forall v, keeps_files (k v)) -> keeps_files (bind m k).
Proof.
  intros Hm Hk s. unfold bind. specialize (Hm s).
  destruct (m s) as [[v|e] s1]; cbn [snd] in *; [|exact Hm].
  rewrite (Hk v s1). exact Hm.
Qed.

Lemma keeps_files_call {A} (e : event) (r : result A) : keeps_files (call e r).
Proof. intros s. reflexivity. Qed.

Lemma keeps_files_poll_loop w arn key :
  forall n e, (remaining e <= n)%nat -> keeps_files (poll_loop w arn key e).
Proof.
  induction n as [|n IH]; intros e Hn s.
  - rewrite poll_loop_timeout by (unfold remaining, max_wait_time in *; lia).
    reflexivity.
  - destruct (Z_lt_dec e max_wait_time) as [Hlt|Hge].
    + revert s. rewrite poll_loop_equation_1.
      destruct (Z_lt_dec e max_wait_time) as [Hlt2|]; [|lia]. simpl.
      assert (Hnext : keeps_files (sleep poll_interval ;;;
                                   poll_loop w arn key (e + poll_interval))%run).
      { apply keeps_files_bind; [apply keeps_files_call | intros _].
        apply IH. unfold remaining, max_wait_time, poll_interval in *. lia. }
      apply keeps_files_bind; [intros ?; reflexivity | intros resp].
      destruct (String.eqb (status resp) "Completed").
      { unfold locate_video. apply keeps_files_bind; [apply keeps_files_call | intros keys].
        destruct (first_mp4 keys); intros ?; reflexivity. }
      destruct (String.eqb (status resp) "Failed"); [intros ?; reflexivity|].
      destruct (String.eqb (status resp) "InProgress" || String.eqb (status resp) "Submitted");
        exact Hnext.
    + rewrite poll_loop_timeout by lia. reflexivity.
Qed.

(** [create_video_with_nova_reel] keeps a temporary copy of the reference
    image only while it reads it, unless the download fails: then the run
    ends with the error of the download, nothing is submitted, and the
    temporary file stays on disk. *)
Theorem video_temporary_image w video_prompt reference_image_s3 s bucket :
  Locator.bucket_of reference_image_s3 = Ok bucket ->
  let run := create_video_with_nova_reel w video_prompt reference_image_s3 in
  let key := Locator.key_of reference_image_s3 in
  (forall msg,
     get_object w bucket key = Raise msg ->
     fst (run s) = Raise ("Failed to create video: " +:+ msg) /\
     run_log run s = [EvGetObject bucket key] /\
     job_tmp_file w s ∈ fs (snd (run s))) /\
  (forall image,
     get_object w bucket key = Ok image ->
     unlink_denied w (job_tmp_file w s) = false ->
     fs (snd (run s)) = fs s ∖ {[job_tmp_file w s]}).
Proof.
  intros Hb run key. split.
  - intros msg Hg. unfold run, run_log, create_video_with_nova_reel.
    unfold try_except, bind, uuid4, lift, named_temporary_file, call, raise.
    rewrite Hb. state_simpl. fold key. rewrite Hg. cbn [fst snd]. state_simpl.
    split; [reflexivity|]. split; [apply drop_app_length|].
    unfold job_tmp_file. set_solver.
  - intros image Hg Hu. unfold run, create_video_with_nova_reel.
    unfold try_except at 1.
    unfold bind at 1. unfold uuid4 at 1.
    unfold bind at 1. unfold lift at 1. rewrite Hb.
    unfold bind at 1. unfold named_temporary_file at 1.
    unfold bind at 1. unfold call at 1. state_simpl. fold key. rewrite Hg.
    unfold bind at 1. unfold os_unlink at 1. state_simpl.
    rewrite bool_decide_eq_true_2 by set_solver.
    unfold job_tmp_file in *. rewrite Hu.
    match goal with
    | |- fs (snd (let (_, _) := bind ?m ?k ?s0 in _)) = _ =>
        assert (Hk : keeps_files (bind m k));
        [|specialize (Hk s0); destruct (bind m k s0) as [[v|e] s1]]
    end.
    + apply keeps_files_bind; [intros s0; reflexivity | intros u].
      apply keeps_files_bind; [apply keeps_files_call | intros arn].
      apply (keeps_files_poll_loop w arn _ (remaining 0) 0). lia.
    + cbn [snd] in *. rewrite Hk. state_simpl. set_solver.
    + unfold raise. cbn [snd] in *. rewrite Hk. state_simpl. set_solver.
Qed.

Lemma video_temporary_image_witness :
  fst (create_video_with_nova_reel empty_bucket_world "a car" sample_image initial_state)
    = Raise ("Failed to create video: " +:+
             "An error occurred (404) when calling the HeadObject operation: Not Found") /\
  "/tmp/tmp0.png" ∈
    fs (snd (create_video_with_nova_reel empty_bucket_world "a car" sample_image
               initial_state)) /\
  fs (snd (create_video_with_nova_reel failing_job_world "a car" sample_image initial_state))
    = fs initial_state ∖ {["/tmp/tmp0.png"]}.
Proof.
  split; [|split].
  - apply (proj1 (video_temporary_image empty_bucket_world "a car" sample_image
                    initial_state "deb-banners" eq_refl)). reflexivity.
  - apply (proj1 (video_temporary_image empty_bucket_world "a car" sample_image
                    initial_state "deb-banners" eq_refl)
             "An error occurred (404) when calling the HeadObject operation: Not Found").
    reflexivity.
  - apply (proj2 (video_temporary_image failing_job_world "a car" sample_image
                    initial_state "deb-banners" eq_refl) "image"); reflexivity.
Defined.

(** ** Stage boundaries: what one tool stores, the next one fetches *)

Ltac any_step :=
  first
    [ apply logs_ret | apply logs_raise | apply logs_lift | apply logs_uuid4
    | apply logs_named_temporary_file | apply logs_os_unlink | apply logs_unlink_all
    | apply logs_try_except; [|intros ?]
    | apply logs_bind; [|intros ?]
    | apply logs_call; exact I ].

(** A step that starts with a logged call: the call comes next in what
    the run adds to the log, whatever follows. *)
Lemma run_log_head {A B C} (e : event) (r : result A) (k : A -> M B)
    (finish : result B -> state -> result C * state) (pre : list event) s s0 :
  calls s0 = calls s ++ pre ->
  (forall v, logs (fun _ => True) (k v)) ->
  (forall x s1, calls (snd (finish x s1)) = calls s1) ->
  exists l,
    drop (length (calls s))
         (calls (snd (let (x, s1) := bind (call e r) k s0 in finish x s1)))
    = pre ++ e :: l.
Proof.
  intros Hs Hk Hf. unfold bind, call.
  destruct r as [v|msg].
  - destruct (Hk v (with_calls (fun l => l ++ [e]) s0)) as (l & E & _).
    destruct (k v (with_calls (fun l => l ++ [e]) s0)) as [x s1]. cbn [snd] in E.
    rewrite Hf, E. cbn [calls with_calls]. rewrite Hs, <- !app_assoc, drop_app_length.
    exists l. reflexivity.
  - rewrite Hf. cbn [calls with_calls]. rewrite Hs, <- !app_assoc, drop_app_length.
    exists []. reflexivity.
Qed.

(** Given the locator of an object in a bucket whose name has no slash,
    [create_video_with_nova_reel] first fetches that object. *)
Lemma video_fetches_reference w video_prompt bucket key s :
  Py.contains_char "/" bucket = false ->
  exists l,
    run_log (create_video_with_nova_reel w video_prompt (Locator.format bucket key)) s
    = EvGetObject bucket key :: l.
Proof.
  intros Hb. destruct (bucket_key_of_format bucket key Hb) as [Hbucket Hkey].
  unfold run_log, create_video_with_nova_reel.
  unfold try_except at 1.
  unfold bind at 1. unfold uuid4 at 1.
  unfold bind at 1. unfold lift at 1. rewrite Hbucket, Hkey.
  unfold bind at 1. unfold named_temporary_file at 1.
  match goal with
  | |- context [let (_, _) := bind (call ?e ?r) ?k ?s0 in _] =>
      apply (run_log_head e r k
               (fun x s1 => match x with
                            | Ok v => (Ok v, s1)
                            | Raise msg => raise ("Failed to create video: " +:+ msg) s1
                            end) [] s s0)
  end.
  - cbn [calls with_fs next_tmp next_uuid]. now rewrite app_nil_r.
  - intros image. repeat any_step.
    match goal with
    | |- logs _ (poll_loop _ ?arn ?k _) =>
        apply (logs_poll_loop _ w arn k I I I (remaining 0) 0); lia
    end.
  - intros [v|msg] s1; reflexivity.
Qed.

(** The video step fetches the object the image step has stored: the
    reference [create_reference_image] returns resolves, in
    [create_video_with_nova_reel], to the bucket and the key of its one
    upload. *)
Theorem image_reference_round_trip w image_prompt video_prompt s path s1 :
  Py.contains_char "/" (s3_bucket w) = false ->
  create_reference_image w image_prompt s = (Ok path, s1) ->
  exists key l,
    run_log (create_reference_image w image_prompt) s
      = [EvPutObject (s3_bucket w) key "image/png"] /\
    run_log (create_video_with_nova_reel w video_prompt path) s1
      = EvGetObject (s3_bucket w) key :: l.
Proof.
  intros Hb Hrun.
  exists (image_key_of (uuid4_hex w (uuids_drawn s))).
  unfold run_log at 1. revert Hrun.
  unfold create_reference_image, try_except, bind, uuid4, lift, call, ret, raise.
  destruct (render_placeholder w image_prompt) as [png|e]; [|discriminate].
  destruct (put_object w (s3_bucket w) _) as [[]|e]; [|discriminate].
  intros [= <- <-]. state_simpl.
  destruct (video_fetches_reference w video_prompt (s3_bucket w)
              (image_key_of (uuid4_hex w (uuids_drawn s)))
              (with_calls
                 (fun l => l ++ [EvPutObject (s3_bucket w)
                                   (image_key_of (uuid4_hex w (uuids_drawn s))) "image/png"])
                 (next_uuid s)) Hb) as [l Hl].
  exists l. split; [apply drop_app_length | exact Hl].
Qed.

Lemma image_reference_round_trip_witness :
  exists key l,
    run_log (create_reference_image smooth_world "A red car") initial_state
      = [EvPutObject "deb-banners" key "image/png"] /\
    run_log (create_video_with_nova_reel smooth_world "The car drives" sample_image_path)
            (snd (create_reference_image smooth_world "A red car" initial_state))
      = EvGetObject "deb-banners" key :: l.
Proof.
  apply (image_reference_round_trip smooth_world "A red car" "The car drives"
           initial_state sample_image_path
           (snd (create_reference_image smooth_world "A red car" initial_state))).
  - reflexivity.
  - vm_compute. reflexivity.
Defined.

(** Given two locators in buckets whose names have no slash,
    [merge_video_and_audio] fetches the first object and, once it has it,
    the second. *)
Lemma merge_fetches_references w vbucket vkey abucket akey s :
  Py.contains_char "/" vbucket = false ->
  Py.contains_char "/" abucket = false ->
  let run := merge_video_and_audio w (Locator.format vbucket vkey)
                                   (Locator.format abucket akey) in
  (exists l, run_log run s = EvGetObject vbucket vkey :: l) /\
  (forall bytes, get_object w vbucket vkey = Ok bytes ->
     exists l, run_log run s = EvGetObject vbucket vkey :: EvGetObject abucket akey :: l).
Proof.
  intros Hv Ha run.
  destruct (bucket_key_of_format vbucket vkey Hv) as [Hvb Hvk].
  destruct (bucket_key_of_format abucket akey Ha) as [Hab Hak].
  split.
  - unfold run, run_log, merge_video_and_audio, merge_body.
    unfold try_except at 1.
    unfold bind at 1. unfold named_temporary_file at 1.
    unfold bind at 1. unfold named_temporary_file at 1.
    unfold bind at 1. unfold lift at 1. rewrite Hvb, Hvk.
    match goal with
    | |- context [let (_, _) := bind (call ?e ?r) ?k ?s0 in _] =>
        apply (run_log_head e r k
                 (fun x s1 => match x with
                              | Ok v => (Ok v, s1)
                              | Raise msg =>
                                  raise ("Failed to merge video and audio: " +:+ msg) s1
                              end) [] s s0)
    end.
    + cbn [calls with_fs next_tmp]. now rewrite app_nil_r.
    + intros bytes. unfold write_video. repeat any_step.
    + intros [v|msg] s1; reflexivity.
  - intros bytes Hg.
    unfold run, run_log, merge_video_and_audio, merge_body.
    unfold try_except at 1.
    unfold bind at 1. unfold named_temporary_file at 1.
    unfold bind at 1. unfold named_temporary_file at 1.
    unfold bind at 1. unfold lift at 1. rewrite Hvb, Hvk.
    unfold bind at 1. unfold call at 1. rewrite Hg.
    unfold bind at 1. unfold lift at 1. rewrite Hab, Hak.
    match goal with
    | |- context [let (_, _) := bind (call ?e ?r) ?k ?s0 in _] =>
        apply (run_log_head e r k
                 (fun x s1 => match x with
                              | Ok v => (Ok v, s1)
                              | Raise msg =>
                                  raise ("Failed to merge video and audio: " +:+ msg) s1
                              end) [EvGetObject vbucket vkey] s s0)
    end.
    + reflexivity.
    + intros bytes'. unfold write_video. repeat any_step.
    + intros [v|msg] s1; reflexivity.
Qed.

(** The merge step fetches the video the listing named and the voiceover
    the audio step has stored: the reference [create_voiceover_audio]
    returns resolves, in [merge_video_and_audio], to the bucket and the key
    of its one upload. *)
Theorem audio_reference_round_trip w audio_script video_key bytes s audio_path s1 s2 :
  Py.contains_char "/" (s3_bucket w) = false ->
  create_voiceover_audio w audio_script s = (Ok audio_path, s1) ->
  get_object w (s3_bucket w) video_key = Ok bytes ->
  exists audio_key l,
    run_log (create_voiceover_audio w audio_script) s
      = [EvSynthesizeSpeech audio_script;
         EvPutObject (s3_bucket w) audio_key "audio/mpeg"] /\
    run_log (merge_video_and_audio w (Locator.format (s3_bucket w) video_key) audio_path) s2
      = EvGetObject (s3_bucket w) video_key :: EvGetObject (s3_bucket w) audio_key :: l.
Proof.
  intros Hb Hrun Hg.
  exists (audio_key_of (uuid4_hex w (uuids_drawn s))).
  unfold run_log at 1. revert Hrun.
  unfold create_voiceover_audio, try_except, bind, uuid4, call, ret, raise.
  destruct (synthesize_speech w audio_script) as [mp3|e]; [|discriminate].
  destruct (put_object w (s3_bucket w) _) as [[]|e]; [|discriminate].
  intros [= <- <-]. state_simpl.
  destruct (proj2 (merge_fetches_references w (s3_bucket w) video_key (s3_bucket w)
                     (audio_key_of (uuid4_hex w (uuids_drawn s))) s2 Hb Hb) bytes Hg)
    as [l Hl].
  exists l. split; [|exact Hl].
  rewrite <- app_assoc. apply drop_app_length.
Qed.

Lemma audio_reference_round_trip_witness :
  exists audio_key l,
    run_log (create_voiceover_audio smooth_world "Drive the coast.") initial_state
      = [EvSynthesizeSpeech "Drive the coast.";
         EvPutObject "deb-banners" audio_key "audio/mpeg"] /\
    run_log (merge_video_and_audio smooth_world
               (Locator.format "deb-banners" "generated_videos/video_x/k3x9q2/output.mp4")
               "s3://deb-banners/generated_audio/voiceover_9f1c2d3e4b5a69788796a5b4c3d2e1f0.mp3")
            initial_state
      = EvGetObject "deb-banners" "generated_videos/video_x/k3x9q2/output.mp4"
        :: EvGetObject "deb-banners" audio_key :: l.
Proof.
  apply (audio_reference_round_trip smooth_world "Drive the coast."
           "generated_videos/video_x/k3x9q2/output.mp4" "bytes" initial_state
           "s3://deb-banners/generated_audio/voiceover_9f1c2d3e4b5a69788796a5b4c3d2e1f0.mp3"
           (snd (create_voiceover_audio smooth_world "Drive the coast." initial_state))
           initial_state).
  - reflexivity.
  - vm_compute. reflexivity.
  - reflexivity.
Defined.

(** ** The driver of enhanced_agent_config.py, on every run *)





(** ** Paths read off the agent's answers *)

Section StringFacts.

Lemma rev_app_spec (a b : string) : String.rev_app a b = String.rev a +:+ b.
Proof.
  unfold String.rev. revert b. induction a as [|x a IH]; intros b; [reflexivity|].
  cbn [String.rev_app]. rewrite (IH (String x b)), (IH (String x "")).
  rewrite append_assoc. reflexivity.
Qed.

Lemma rev_cons (x : ascii) (a : string) :
  String.rev (String x a) = String.rev a +:+ String x "".
Proof. unfold String.rev at 1. cbn [String.rev_app]. apply rev_app_spec. Qed.

Lemma rev_append (a b : string) :
  String.rev (a +:+ b) = String.rev b +:+ String.rev a.
Proof.
  induction a as [|x a IH].
  - cbn. now rewrite append_empty_r.
  - cbn [String.append]. rewrite !rev_cons, IH. apply append_assoc.
Qed.

Lemma all_chars_app p (a b : string) :
  all_chars p (a +:+ b) = all_chars p a && all_chars p b.
Proof.
  induction a as [|x a IH]; [reflexivity|].
  cbn [String.append all_chars]. rewrite IH. apply andb_assoc.
Qed.

Lemma all_chars_rev p (a : string) : all_chars p (String.rev a) = all_chars p a.
Proof.
  induction a as [|x a IH]; [reflexivity|].
  rewrite rev_cons, all_chars_app, IH. cbn [all_chars].
  rewrite andb_true_r. apply andb_comm.
Qed.

Lemma all_chars_drop_while p q (s : string) :
  all_chars q s = true -> all_chars q (AgentApp.drop_while p s) = true.
Proof.
  induction s as [|x s IH]; [reflexivity|].
  cbn [all_chars AgentApp.drop_while]. intros H.
  destruct (p x); [|exact H].
  apply andb_prop in H as [_ H]. now apply IH.
Qed.

Lemma all_chars_take_while p (s : string) :
  all_chars p (AgentApp.take_while p s) = true.
Proof.
  induction s as [|x s IH]; [reflexivity|].
  cbn [AgentApp.take_while]. destruct (p x) eqn:E; [|reflexivity].
  cbn [all_chars]. now rewrite E, IH.
Qed.

(** Dropping from the front stops at the first character that fails the
    test, also when it sits in the second of two joined strings. *)
Lemma drop_while_app p (a : string) (c : ascii) (b : string) :
  p c = false ->
  AgentApp.drop_while p (a +:+ String c b) = AgentApp.drop_while p a +:+ String c b.
Proof.
  intros Hc. induction a as [|x a IH].
  - cbn. now rewrite Hc.
  - cbn [String.append AgentApp.drop_while]. destruct (p x); [exact IH | reflexivity].
Qed.

Lemma after_prefix_startswith (p s t : string) :
  AgentApp.after_prefix p s = Some t -> Py.startswith s p = true.
Proof.
  revert s. induction p as [|b p IH]; intros s H; [destruct s; reflexivity|].
  destruct s as [|a s]; [discriminate|].
  cbn [AgentApp.after_prefix Py.startswith] in *.
  destruct (Ascii.eqb a b); [|discriminate]. cbn [andb]. now apply IH.
Qed.

End StringFacts.

(** What the search of line 163 finds: the prefix and a non-empty run of
    accepted characters. *)
Lemma search_s3_spec (text m : string) :
  AgentApp.search_s3 text = Some m ->
  exists body, m = "s3://" +:+ body /\ body <> "" /\
               all_chars AgentApp.path_char body = true.
Proof.
  induction text as [|c rest IH]; [discriminate|].
  cbn [AgentApp.search_s3].
  destruct (AgentApp.after_prefix "s3://" (String c rest)) as [tail|]; [|exact IH].
  pose proof (all_chars_take_while AgentApp.path_char tail) as Hall.
  destruct (AgentApp.take_while AgentApp.path_char tail) as [|x body]; [exact IH|].
  intros [= <-]. exists (String x body). repeat split; [discriminate | exact Hall].
Qed.

Lemma search_s3_none (text : string) :
  Py.contains text "s3://" = false -> AgentApp.search_s3 text = None.
Proof.
  induction text as [|c rest IH]; [reflexivity|].
  intros H. cbn [Py.contains] in H. apply orb_false_elim in H as [Hs Hc].
  cbn [AgentApp.search_s3].
  destruct (AgentApp.after_prefix "s3://" (String c rest)) as [tail|] eqn:E;
    [|exact (IH Hc)].
  apply after_prefix_startswith in E. rewrite E in Hs. discriminate.
Qed.

(** Stripping a match of the search leaves the prefix in place. *)
Lemma strip_s3_path (body : string) :
  all_chars AgentApp.path_char body = true ->
  exists body',
    AgentApp.strip AgentApp.strip_char ("s3://" +:+ body) = "s3://" +:+ body' /\
    all_chars AgentApp.path_char body' = true.
Proof.
  intros Hall. unfold AgentApp.strip.
  change (AgentApp.drop_while AgentApp.strip_char ("s3://" +:+ body))
    with ("s3://" +:+ body).
  rewrite rev_append.
  change (String.rev "s3://") with (String "/" "/:3s").
  rewrite drop_while_app by reflexivity.
  rewrite rev_append.
  change (String.rev (String "/" "/:3s")) with "s3://".
  eexists. split; [reflexivity|].
  rewrite all_chars_rev. apply all_chars_drop_while. now rewrite all_chars_rev.
Qed.

(** Whatever the agent answers, a path read off its answer starts with
    [s3://] and goes on with characters the pattern accepts only: no
    whitespace, double quote, closing parenthesis, closing bracket or
    backquote.  An answer without [s3://] gives no path, and the tool is
    then called directly; an answer with a path keeps the tool from being
    called. *)
Theorem s3_path_extraction (response_text : string) :
  (forall p,
     AgentApp.parse_s3_path_from_response response_text = Some p ->
     exists body, p = "s3://" +:+ body /\ all_chars AgentApp.path_char body = true) /\
  (Py.contains response_text "s3://" = false ->
   AgentApp.parse_s3_path_from_response response_text = None) /\
  (forall direct,
     (AgentApp.parse_s3_path_from_response response_text = None ->
      AgentApp.path_or_call response_text direct = direct) /\
     (forall p, AgentApp.parse_s3_path_from_response response_text = Some p ->
      AgentApp.path_or_call response_text direct = ret p)).
Proof.
  assert (Hsome : forall p,
    AgentApp.parse_s3_path_from_response response_text = Some p ->
    exists body, p = "s3://" +:+ body /\ all_chars AgentApp.path_char body = true).
  { intros p. unfold AgentApp.parse_s3_path_from_response.
    destruct (AgentApp.search_s3 response_text) as [m|] eqn:E; [|discriminate].
    destruct (search_s3_spec _ _ E) as (body & -> & _ & Hall).
    destruct (strip_s3_path body Hall) as (body' & Hs & Hall').
    intros [= <-]. exists body'. split; assumption. }
  split; [exact Hsome|]. split.
  - intros H. unfold AgentApp.parse_s3_path_from_response.
    now rewrite (search_s3_none _ H).
  - intros direct. unfold AgentApp.path_or_call. split.
    + now intros ->.
    + intros p Hp. rewrite Hp. destruct (Hsome p Hp) as (body & -> & _). reflexivity.
Qed.

(** ** The text handed to the JSON decoder *)

Section SliceFacts.

Lemma find_first (c : ascii) (pre rest : string) :
  Py.contains_char c pre = false ->
  Py.find c (pre +:+ String c rest) = Py.len pre.
Proof.
  unfold Py.len. induction pre as [|a pre IH]; intros H.
  - cbn. now rewrite Ascii.eqb_refl.
  - cbn [Py.contains_char] in H. apply orb_false_elim in H as [Ha Hp].
    cbn [String.append Py.find String.length]. rewrite Ha, (IH Hp).
    destruct (Z.of_nat (String.length pre) <? 0) eqn:E; lia.
Qed.

Lemma find_none (c : ascii) (s : string) :
  Py.contains_char c s = false -> Py.find c s = -1.
Proof.
  induction s as [|a s IH]; intros H; [reflexivity|].
  cbn [Py.contains_char] in H. apply orb_false_elim in H as [Ha Hs].
  cbn [Py.find]. rewrite Ha, (IH Hs). reflexivity.
Qed.

Lemma rfind_none (c : ascii) (s : string) :
  Py.contains_char c s = false -> Py.rfind c s = -1.
Proof.
  induction s as [|a s IH]; intros H; [reflexivity|].
  cbn [Py.contains_char] in H. apply orb_false_elim in H as [Ha Hs].
  cbn [Py.rfind]. rewrite Ha, (IH Hs). reflexivity.
Qed.

Lemma rfind_last (c : ascii) (front post : string) :
  Py.contains_char c post = false ->
  Py.rfind c (front +:+ String c post) = Py.len front.
Proof.
  unfold Py.len. intros H. induction front as [|a front IH].
  - cbn [String.append Py.rfind String.length]. rewrite (rfind_none c post H).
    cbn. now rewrite Ascii.eqb_refl.
  - cbn [String.append Py.rfind String.length]. rewrite IH.
    destruct (0 <=? Z.of_nat (String.length front)) eqn:E; lia.
Qed.

Lemma rfind_bounds (c : ascii) (s : string) : -1 <= Py.rfind c s < Py.len s.
Proof.
  unfold Py.len. induction s as [|a s IH]; [cbn; lia|].
  cbn [Py.rfind String.length].
  destruct (0 <=? Py.rfind c s) eqn:E; [lia|].
  destruct (Ascii.eqb a c); lia.
Qed.

(** A last occurrence at the last index: the string ends with the
    character. *)
Lemma rfind_at_end (c : ascii) (s : string) :
  s <> "" -> Py.rfind c s = Py.len s - 1 -> exists front, s = front +:+ String c "".
Proof.
  unfold Py.len. induction s as [|a s IH]; intros Hne H; [contradiction|].
  cbn [Py.rfind String.length] in H.
  pose proof (rfind_bounds c s) as Hb. unfold Py.len in Hb.
  destruct (0 <=? Py.rfind c s) eqn:E.
  - destruct s as [|b s']; [cbn in E; discriminate|].
    destruct IH as [front Hf]; [discriminate | lia |].
    exists (String a front). cbn [String.append]. now rewrite <- Hf.
  - destruct (Ascii.eqb a c) eqn:Ea; [|lia].
    apply Ascii.eqb_eq in Ea as ->.
    destruct s; [|cbn [String.length] in H; lia]. now exists "".
Qed.

Lemma substring_skip (pre s : string) (m : nat) :
  String.substring (String.length pre) m (pre +:+ s) = String.substring 0 m s.
Proof. induction pre as [|a pre IH]; [reflexivity | exact IH]. Qed.

Lemma substring_prefix (mid post : string) :
  String.substring 0 (String.length mid) (mid +:+ post) = mid.
Proof.
  induction mid as [|a mid IH]; [destruct post; reflexivity|].
  cbn [String.append String.length String.substring]. now rewrite IH.
Qed.

Lemma substring_nothing (n : nat) (s : string) : String.substring n 0 s = "".
Proof.
  revert n. induction s as [|a s IH]; intros [|n]; try reflexivity.
  cbn [String.substring]. apply IH.
Qed.

End SliceFacts.

(** The extraction of lines 102-104 takes the object out of the prose
    around it: whatever precedes the first opening brace and follows the
    last closing brace is dropped. *)
Theorem extracted_json_strips_prose (pre body post : string) :
  Py.contains_char "{" pre = false ->
  Py.contains_char "}" post = false ->
  extracted_json (pre +:+ "{" +:+ body +:+ "}" +:+ post) = "{" +:+ body +:+ "}".
Proof.
  intros Hpre Hpost. unfold extracted_json.
  set (content := pre +:+ "{" +:+ body +:+ "}" +:+ post).
  assert (Hfind : Py.find "{" content = Py.len pre).
  { unfold content. apply (find_first "{" pre (body +:+ "}" +:+ post) Hpre). }
  assert (Hrfind : Py.rfind "}" content = Py.len (pre +:+ "{" +:+ body)).
  { unfold content.
    replace (pre +:+ "{" +:+ body +:+ "}" +:+ post)
      with ((pre +:+ "{" +:+ body) +:+ String "}" post)
      by (rewrite !append_assoc; reflexivity).
    apply (rfind_last "}" _ post Hpost). }
  rewrite Hfind, Hrfind. unfold Py.slice, Py.clamp, Py.len.
  assert (Hlen : String.length content =
                 (String.length pre + (String.length body + 2) + String.length post)%nat).
  { unfold content. rewrite !append_length. cbn [String.length]. lia. }
  assert (Hlen' : String.length (pre +:+ "{" +:+ body) =
                  (String.length pre + 1 + String.length body)%nat).
  { rewrite !append_length. cbn [String.length]. lia. }
  rewrite Hlen, Hlen'.
  destruct (Z.of_nat (String.length pre) <? 0) eqn:E1; [lia|].
  destruct (Z.of_nat (String.length pre + 1 + String.length body) + 1 <? 0) eqn:E2;
    [apply Z.ltb_lt in E2; lia|].
  rewrite !Z.min_l by lia.
  rewrite Nat2Z.id.
  replace (Z.to_nat (Z.of_nat (String.length pre + 1 + String.length body) + 1
                     - Z.of_nat (String.length pre)))
    with (String.length ("{" +:+ body +:+ "}"))
    by (rewrite !append_length; cbn [String.length]; lia).
  unfold content. rewrite substring_skip.
  replace ("{" +:+ body +:+ "}" +:+ post) with (("{" +:+ body +:+ "}") +:+ post)
    by (rewrite !append_assoc; reflexivity).
  apply substring_prefix.
Qed.

Lemma extracted_json_strips_prose_witness :
  extracted_json ("Here is the strategy: " +:+ "{" +:+ "k: v" +:+ "}" +:+ " Enjoy.")
    = "{" +:+ "k: v" +:+ "}".
Proof.
  apply (extracted_json_strips_prose "Here is the strategy: " "k: v" " Enjoy.");
    reflexivity.
Defined.

(** Without an opening brace in the answer, the start index is [-1] and
    the slice is what is left of the last character: nothing, or a closing
    brace. *)
Lemma extracted_json_without_brace (content : string) :
  Py.contains_char "{" content = false ->
  extracted_json content = "" \/ extracted_json content = "}".
Proof.
  intros H. unfold extracted_json. rewrite (find_none "{" content H).
  pose proof (rfind_bounds "}" content) as Hb.
  unfold Py.slice, Py.clamp. change (-1 <? 0) with true. cbv iota.
  destruct (Py.rfind "}" content + 1 <? 0) eqn:E; [lia|].
  destruct content as [|a content']; [left; reflexivity|].
  set (content := String a content') in *.
  assert (Hn : 1 <= Py.len content) by (unfold Py.len, content; cbn [String.length]; lia).
  rewrite Z.max_r by lia. rewrite Z.min_l by lia.
  destruct (Z.eq_dec (Py.rfind "}" content) (Py.len content - 1)) as [Heq|Hneq].
  - right. destruct (rfind_at_end "}" content) as [front Hf]; [discriminate | exact Heq |].
    rewrite Heq, Hf. unfold Py.len. rewrite append_length. cbn [String.length].
    replace (Z.to_nat (-1 + Z.of_nat (String.length front + 1))) with (String.length front)
      by lia.
    replace (Z.to_nat (Z.of_nat (String.length front + 1) - 1 + 1
                       - (-1 + Z.of_nat (String.length front + 1)))) with 1%nat by lia.
    rewrite substring_skip. reflexivity.
  - left.
    replace (Z.to_nat (Py.rfind "}" content + 1 - (-1 + Py.len content))) with 0%nat by lia.
    apply substring_nothing.
Qed.

(** An answer of the model without any opening brace gives the fallback
    strategy, for every decoder that rejects the empty text and a lone
    closing brace, as [json.loads] does. *)
Theorem answer_without_brace_falls_back w ad_description s content :
  invoke_model w "us.amazon.nova-lite-v1:0" (strategy_prompt ad_description) = Ok content ->
  Py.contains_char "{" content = false ->
  (forall t, t = "" \/ t = "}" -> exists e, json_loads w t = Raise e) ->
  fst (generate_content_strategy w ad_description s) = Ok (fallback_strategy ad_description).
Proof.
  intros Hc Hno Hdec.
  destruct (Hdec _ (extracted_json_without_brace content Hno)) as [e He].
  unfold extracted_json in He.
  unfold generate_content_strategy, try_except, strategy_body, bind, call, lift.
  rewrite Hc, He. reflexivity.
Qed.

Lemma answer_without_brace_falls_back_witness :
  fst (generate_content_strategy prose_world "a car" initial_state)
    = Ok (fallback_strategy "a car").
Proof.
  apply (answer_without_brace_falls_back prose_world "a car" initial_state
           "I can not help with that request.").
  - reflexivity.
  - reflexivity.
  - intros t _. exists "Expecting value". reflexivity.
Defined.

(** ** More on the merge step *)

Section AdjustFacts.

Local Open Scope Q_scope.



Lemma adjust_empty_audio (v : video) (a : audio) :
  audio_duration a == 0 -> 0 < video_duration v ->
  adjust_audio v a = Raise "float division by zero".
Proof.
  intros HE HV. unfold adjust_audio.
  destruct (Qlt_le_dec (video_duration v) (audio_duration a)) as [H|_];
    [rewrite HE in H; exfalso; exact (Qlt_irrefl _ (Qlt_trans _ _ _ H HV))|].
  destruct (Qlt_le_dec (audio_duration a) (video_duration v)) as [_|H];
    [|rewrite HE in H; exfalso; exact (Qlt_not_le _ _ HV H)].
  apply Qeq_bool_iff in HE. now rewrite HE.
Qed.

End AdjustFacts.



(** A voiceover of length zero makes [merge_video_and_audio] fail after
    both downloads: nothing is encoded and nothing is uploaded. *)
Theorem empty_audio_fails_merge w video_s3_path audio_s3_path s vb ab vbytes abytes V A :
  Locator.bucket_of video_s3_path = Ok vb ->
  get_object w vb (Locator.key_of video_s3_path) = Ok vbytes ->
  Locator.bucket_of audio_s3_path = Ok ab ->
  get_object w ab (Locator.key_of audio_s3_path) = Ok abytes ->
  open_video_clip w (merge_video_file w s) = Ok V ->
  open_audio_clip w (merge_audio_file w s) = Ok A ->
  (A == 0)%Q -> (0 < V)%Q ->
  let run := merge_video_and_audio w video_s3_path audio_s3_path in
  fst (run s) = Raise "Failed to merge video and audio: float division by zero" /\
  run_log run s = [EvGetObject vb (Locator.key_of video_s3_path);
                   EvGetObject ab (Locator.key_of audio_s3_path)].
Proof.
  intros Hvb Hvg Hab Hag HV HA HE HV0 run.
  pose proof (adjust_empty_audio {| video_duration := V; video_audio := None |}
                (AudioSource A) HE HV0) as Hadj.
  unfold run, run_log, merge_video_and_audio, merge_body.
  unfold try_except, bind, named_temporary_file, lift, call, raise.
  unfold merge_video_file, merge_audio_file in *.
  rewrite Hvb. state_simpl. rewrite Hvg, Hab, Hag. state_simpl.
  rewrite HV, HA, Hadj. cbn [fst snd]. state_simpl.
  split; [reflexivity|].
  rewrite <- app_assoc. apply drop_app_length.
Qed.

Lemma empty_audio_fails_merge_witness :
  fst (merge_video_and_audio (calm_world 6 0) sample_video sample_audio initial_state)
    = Raise "Failed to merge video and audio: float division by zero" /\
  run_log (merge_video_and_audio (calm_world 6 0) sample_video sample_audio) initial_state
    = [EvGetObject "deb-banners" (Locator.key_of sample_video);
       EvGetObject "deb-banners" (Locator.key_of sample_audio)].
Proof.
  apply (empty_audio_fails_merge (calm_world 6 0) sample_video sample_audio initial_state
           "deb-banners" "deb-banners" "bytes" "bytes" 6 0); reflexivity.
Defined.

Lemma unlink_swallowed w x s :
  unlink_denied w x = false ->
  fst (try_except (os_unlink w x) (fun _ => ret tt) s) = Ok tt /\
  calls (snd (try_except (os_unlink w x) (fun _ => ret tt) s)) = calls s /\
  fs (snd (try_except (os_unlink w x) (fun _ => ret tt) s)) = fs s ∖ {[x]}.
Proof.
  intros Hd. unfold try_except, os_unlink.
  destruct (bool_decide (x ∈ fs s)) eqn:E.
  - rewrite Hd. state_simpl. auto.
  - cbn [fst snd ret]. apply bool_decide_eq_false in E.
    repeat split. apply leibniz_equiv. set_solver.
Qed.

Lemma unlink_all_spec w files : forall s,
  (forall f, In f files -> unlink_denied w f = false) ->
  fst (unlink_all w files s) = Ok tt /\
  calls (snd (unlink_all w files s)) = calls s /\
  fs (snd (unlink_all w files s)) = fs s ∖ list_to_set files.
Proof.
  induction files as [|f files IH]; intros s Hd.
  - cbn. repeat split. apply leibniz_equiv. set_solver.
  - cbn [unlink_all]. unfold bind.
    destruct (unlink_swallowed w f s (Hd f (or_introl eq_refl))) as (Hok & Hc & Hfs).
    destruct (try_except (os_unlink w f) (fun _ => ret tt) s) as [[[]|e] s1];
      cbn [fst snd] in *; [|discriminate].
    destruct (IH s1 (fun g Hg => Hd g (or_intror Hg))) as (Hok' & Hc' & Hfs').
    split; [exact Hok'|]. split; [congruence|].
    rewrite Hfs', Hfs. apply leibniz_equiv. cbn [list_to_set]. set_solver.
Qed.

Lemma try_except_reraise_ok {A} (m : M A) (h : string -> string) s v s' :
  try_except m (fun e => raise (h e)) s = (Ok v, s') -> m s = (Ok v, s').
Proof.
  unfold try_except, raise. destruct (m s) as [[x|e] s1]; [auto | discriminate].
Qed.

(** Take the outcome of a primitive step that succeeded apart. *)
Ltac prim_inv :=
  repeat match goal with
  | H : named_temporary_file _ _ _ = (Ok _, _) |- _ =>
      unfold named_temporary_file in H; injection H as <- <-
  | H : uuid4 _ _ = (Ok _, _) |- _ => unfold uuid4 in H; injection H as <- <-
  | H : write_video _ _ _ _ = (Ok _, _) |- _ => unfold write_video in H
  | H : call _ _ _ = (Ok _, _) |- _ => unfold call in H; injection H as H <-
  | H : ret _ _ = (Ok _, _) |- _ => unfold ret in H; injection H as <- <-
  end.


Lemma merge_success_state w video_s3_path audio_s3_path s path s' :
  merge_video_and_audio w video_s3_path audio_s3_path s = (Ok path, s') ->
  exists vb ab d ad s1,
    path = Locator.format (s3_bucket w) (final_key_of (uuid4_hex w (uuids_drawn s))) /\
    calls s1 = calls s ++
       [EvGetObject vb (Locator.key_of video_s3_path);
        EvGetObject ab (Locator.key_of audio_s3_path);
        EvWriteVideofile (merge_final_file w s) d ad;
        EvPutObject (s3_bucket w) (final_key_of (uuid4_hex w (uuids_drawn s))) "video/mp4"] /\
    fs s1 = {[merge_final_file w s]} ∪ ({[merge_audio_file w s]} ∪
              ({[merge_video_file w s]} ∪ fs s)) /\
    unlink_all w [merge_video_file w s; merge_audio_file w s; merge_final_file w s] s1
      = (Ok tt, s').
Proof.
  intros Hrun.
  unfold merge_video_and_audio in Hrun. apply try_except_reraise_ok in Hrun.
  unfold merge_body in Hrun. step_inv. prim_inv.
  match goal with
  | H : unlink_all w _ ?s0 = (Ok ?u, _) |- _ => destruct u; exists x3, x7; do 2 eexists; exists s0
  end.
  split; [reflexivity|]. split; [|split; [reflexivity|assumption]].
  unfold merge_final_file. state_simpl. rewrite <- !app_assoc. reflexivity.
Qed.

(** What a successful call of [merge_video_and_audio] has done: two
    fetches, one encoding, one upload, in this order; the reference it
    returns is the locator of the object uploaded; and the three
    temporary files are gone, unless their removal is refused. *)
Theorem merge_success_contract w video_s3_path audio_s3_path s path s' :
  merge_video_and_audio w video_s3_path audio_s3_path s = (Ok path, s') ->
  (forall f, In f [merge_video_file w s; merge_audio_file w s; merge_final_file w s] ->
             unlink_denied w f = false) ->
  let key := final_key_of (uuid4_hex w (uuids_drawn s)) in
  path = Locator.format (s3_bucket w) key /\
  (exists vb ab d ad,
     calls s' = calls s ++
       [EvGetObject vb (Locator.key_of video_s3_path);
        EvGetObject ab (Locator.key_of audio_s3_path);
        EvWriteVideofile (merge_final_file w s) d ad;
        EvPutObject (s3_bucket w) key "video/mp4"]) /\
  fs s' = fs s ∖ {[merge_video_file w s; merge_audio_file w s; merge_final_file w s]}.
Proof.
  intros Hrun Hd key.
  destruct (merge_success_state _ _ _ _ _ _ Hrun) as (vb & ab & d & ad & s1 & Hp & Hc & Hfs & Hu).
  destruct (unlink_all_spec w _ s1 Hd) as (_ & Hc' & Hfs').
  rewrite Hu in Hc', Hfs'. cbn [snd] in Hc', Hfs'.
  split; [exact Hp|]. split.
  - exists vb, ab, d, ad. now rewrite Hc'.
  - rewrite Hfs', Hfs. cbn [list_to_set]. clear.
    generalize (merge_video_file w s), (merge_audio_file w s), (merge_final_file w s), (fs s).
    intros a b c F. apply leibniz_equiv. set_solver.
Qed.

Lemma merge_success_contract_witness :
  let run := merge_video_and_audio (calm_world 6 9) sample_video sample_audio initial_state in
  fst run = Ok "s3://deb-banners/final_videos/ad_9f1c2d3e4b5a69788796a5b4c3d2e1f0.mp4" /\
  fs (snd run) = fs initial_state ∖ {["/tmp/tmp0.mp4"; "/tmp/tmp1.mp3"; "/tmp/tmp2.mp4"]}.
Proof.
  intros run.
  destruct (merge_success_contract (calm_world 6 9) sample_video sample_audio initial_state
              (Locator.format "deb-banners"
                 (final_key_of "9f1c2d3e4b5a69788796a5b4c3d2e1f0"))
              (snd run)) as (_ & _ & Hfs).
  - vm_compute. reflexivity.
  - intros f _. reflexivity.
  - split; [vm_compute; reflexivity | exact Hfs].
Defined.

(** ** The scripts *)

Section SplitFacts.

(** Put a prefix in front of the first piece. *)
Let cons_first (p : string) (l : list string) : list string :=
  match l with
  | [] => [p]
  | w :: ws => (p +:+ w) :: ws
  end.

Lemma cons_first_app (p q : string) (l : list string) :
  cons_first p (cons_first q l) = cons_first (p +:+ q) l.
Proof.
  destruct l as [|w ws]; cbn; [reflexivity|]. now rewrite append_assoc.
Qed.

Lemma split_go_nonempty sep skip s : Auto.split_go sep skip s <> [].
Proof.
  revert skip. induction s as [|a s IH]; intros skip; [discriminate|].
  cbn [Auto.split_go]. destruct skip as [|k]; [|apply IH].
  destruct (Py.startswith (String a s) sep); [discriminate|].
  destruct (Auto.split_go sep 0 s); discriminate.
Qed.

(** A character that does not occur in the separator cannot complete an
    occurrence of it. *)
Lemma startswith_before (c : ascii) (sep x tail : string) :
  Py.contains_char c sep = false ->
  Py.startswith (x +:+ String c tail) sep = true ->
  Py.startswith x sep = true.
Proof.
  revert x. induction sep as [|b sep IH]; intros x Hc H.
  - destruct x; reflexivity.
  - cbn [Py.contains_char] in Hc. apply orb_false_elim in Hc as [Hb Hsep].
    destruct x as [|a x]; cbn [String.append Py.startswith] in *.
    + rewrite Ascii.eqb_sym, Hb in H. discriminate.
    + apply andb_prop in H as [Ha Hx]. rewrite Ha. cbn [andb]. now apply IH.
Qed.

(** A stretch without an occurrence of the separator, ended by a
    character that is not in the separator, goes whole into the piece it
    starts. *)
Lemma split_go_stretch (c b : ascii) (sep' x tail : string) :
  Py.contains_char c (String b sep') = false ->
  Py.contains x (String b sep') = false ->
  Auto.split_go (String b sep') 0 (x +:+ String c tail) =
  cons_first (x +:+ String c "") (Auto.split_go (String b sep') 0 tail).
Proof.
  intros Hc. set (sep := String b sep') in *.
  induction x as [|a x IH]; intros Hx.
  - cbn [String.append Auto.split_go].
    assert (Hs : Py.startswith (String c tail) sep = false).
    { unfold sep. cbn [Py.startswith]. unfold sep in Hc. cbn [Py.contains_char] in Hc.
      apply orb_false_elim in Hc as [Hb _]. now rewrite Ascii.eqb_sym, Hb. }
    rewrite Hs. destruct (Auto.split_go sep 0 tail); reflexivity.
  - cbn [Py.contains] in Hx. apply orb_false_elim in Hx as [Hs Hx].
    cbn [String.append Auto.split_go].
    assert (Hs' : Py.startswith (String a (x +:+ String c tail)) sep = false).
    { destruct (Py.startswith (String a (x +:+ String c tail)) sep) eqn:E; [|reflexivity].
      apply (startswith_before c sep (String a x) tail Hc) in E. congruence. }
    rewrite Hs', (IH Hx).
    destruct (Auto.split_go sep 0 tail); reflexivity.
Qed.

Lemma startswith_empty (s : string) : Py.startswith s "" = true.
Proof. destruct s; reflexivity. Qed.

Lemma startswith_app (p post : string) : Py.startswith (p +:+ post) p = true.
Proof.
  induction p as [|b p IH]; [apply startswith_empty|].
  cbn [String.append Py.startswith]. now rewrite Ascii.eqb_refl, IH.
Qed.

Lemma contains_app (pre p post : string) : Py.contains (pre +:+ p +:+ post) p = true.
Proof.
  induction pre as [|a pre IH].
  - cbn [String.append]. destruct (p +:+ post) eqn:E; cbn [Py.contains];
      rewrite <- E, startswith_app; reflexivity.
  - cbn [String.append Py.contains]. rewrite IH. apply orb_true_r.
Qed.

(** The text after [ARN: ] in a message, when it is an identifier without
    a full stop followed by a full stop, is what the two [split]s of
    auto_video_ad.py:63 give. *)
Lemma video_arn_of_message (arn tail : string) :
  Py.contains_char "." arn = false ->
  Py.contains arn "ARN: " = false ->
  Auto.video_arn_of ("Video generation started. ARN: " +:+ arn +:+ String "." tail)
    = Ok (Some arn).
Proof.
  intros Hdot Harn. unfold Auto.video_arn_of.
  change ("Video generation started. ARN: " +:+ arn +:+ String "." tail)
    with ("Video generation started. " +:+ "ARN:" +:+ (" " +:+ arn +:+ String "." tail)) at 1.
  rewrite contains_app.
  unfold Auto.split_str.
  change ("Video generation started. ARN: " +:+ arn +:+ String "." tail)
    with ("Video generation started" +:+
          String "." (String " " ("ARN: " +:+ arn +:+ String "." tail))).
  rewrite (split_go_stretch "." "A" "RN: " "Video generation started") by reflexivity.
  cbn [Auto.split_go Py.startswith String.append Ascii.eqb Bool.eqb andb String.length
       Nat.sub].
  rewrite startswith_empty.
  rewrite (split_go_stretch "." "A" "RN: " arn tail) by (reflexivity || exact Harn).
  pose proof (split_go_nonempty "ARN: " 0 tail) as Hne.
  destruct (Auto.split_go "ARN: " 0 tail) as [|w ws]; [contradiction|].
  cbn [cons_first lookup list_lookup].
  rewrite append_assoc. cbn [String.append].
  rewrite (split_first_piece "." arn w Hdot). reflexivity.
Qed.

End SplitFacts.

(** What [create_video_with_image] answers once the job is submitted. *)
Lemma script_video_message w video_prompt image_s3_path s bucket data arn :
  Locator.bucket_of image_s3_path = Ok bucket ->
  get_object w bucket (Locator.key_of image_s3_path) = Ok data ->
  start_async_invoke w
    {| taskType := "TEXT_VIDEO"; text := truncated_prompt video_prompt;
       image_format := "png"; image_bytes := b64encode w data;
       durationSeconds := 6; fps := 24; dimension := "1280x720";
       seed := randint w (rand_draws s) |}
    ("s3://" +:+ s3_bucket w +:+ "/output/") = Ok arn ->
  fst (Script.create_video_with_image w video_prompt image_s3_path s) =
  Ok ("Video generation started. ARN: " +:+ arn +:+ ". Video will be at: s3://" +:+
      s3_bucket w +:+ "/output/" +:+ Script.last_piece arn +:+ "/output.mp4").
Proof.
  intros Hb Hg Hs.
  unfold Script.create_video_with_image, try_except, bind, lift, call, Script.random_seed, ret.
  rewrite Hb, Hg. state_simpl. rewrite Hs. reflexivity.
Qed.

(** The page reads the job identifier back from the message of
    [create_video_with_image]: for an identifier without a full stop and
    without [ARN: ] in it, the two [split]s of auto_video_ad.py:63 give
    exactly the identifier the service returned. *)
Theorem video_arn_round_trip w video_prompt image_s3_path s bucket data arn :
  Locator.bucket_of image_s3_path = Ok bucket ->
  get_object w bucket (Locator.key_of image_s3_path) = Ok data ->
  start_async_invoke w
    {| taskType := "TEXT_VIDEO"; text := truncated_prompt video_prompt;
       image_format := "png"; image_bytes := b64encode w data;
       durationSeconds := 6; fps := 24; dimension := "1280x720";
       seed := randint w (rand_draws s) |}
    ("s3://" +:+ s3_bucket w +:+ "/output/") = Ok arn ->
  Py.contains_char "." arn = false ->
  Py.contains arn "ARN: " = false ->
  exists video_result,
    fst (Script.create_video_with_image w video_prompt image_s3_path s) = Ok video_result /\
    Auto.video_arn_of video_result = Ok (Some arn).
Proof.
  intros Hb Hg Hs Hdot Harn. eexists. split.
  - exact (script_video_message _ _ _ _ _ _ _ Hb Hg Hs).
  - change ("Video generation started. ARN: " +:+ arn +:+ ". Video will be at: s3://" +:+
            s3_bucket w +:+ "/output/" +:+ Script.last_piece arn +:+ "/output.mp4")
      with ("Video generation started. ARN: " +:+ arn +:+
            String "." (" Video will be at: s3://" +:+
                        s3_bucket w +:+ "/output/" +:+ Script.last_piece arn +:+
                        "/output.mp4")).
    now apply video_arn_of_message.
Qed.

Lemma video_arn_round_trip_witness :
  exists video_result,
    fst (Script.create_video_with_image smooth_world "The car drives"
           sample_image_path initial_state) = Ok video_result /\
    Auto.video_arn_of video_result = Ok (Some sample_arn).
Proof.
  apply (video_arn_round_trip smooth_world "The car drives" sample_image_path
           initial_state "deb-banners" "bytes" sample_arn); reflexivity.
Defined.

(** *** A step handed the error text of the step before *)

Lemma bucket_of_few_slashes (path : string) :
  (count_char "/" path < 2)%nat ->
  Locator.bucket_of path = Raise "list index out of range".
Proof.
  intros H. pose proof (split_length "/" path) as Hlen.
  unfold Locator.bucket_of.
  destruct (Py.split "/" path) as [|x0 [|x1 [|x2 rest]]]; cbn [length] in Hlen;
    cbn [lookup list_lookup]; try reflexivity; lia.
Qed.

Lemma video_step_on_error_text w video_prompt e s :
  (count_char "/" e < 2)%nat ->
  Script.create_video_with_image w video_prompt ("Error creating image: " +:+ e) s =
  (Ok "Error creating video: list index out of range", s).
Proof.
  intros He. unfold Script.create_video_with_image, try_except, bind, lift.
  rewrite bucket_of_few_slashes; [reflexivity | exact He].
Qed.

(** [create_video_ad] does not look at what the image step returned: the
    text of an image error, when it has fewer than two slashes, is parsed
    as a locator, and the video step answers with an index error of its
    own without calling any service. *)
Theorem image_error_reaches_video_step w image_prompt video_prompt s e s1 :
  Script.create_image_and_save_s3 w image_prompt s =
    (Ok ("Error creating image: " +:+ e), s1) ->
  (count_char "/" e < 2)%nat ->
  Auto.create_video_ad_from_prompts w image_prompt video_prompt s =
    (Ok "Error creating video: list index out of range", s1).
Proof.
  intros Himg He. unfold Auto.create_video_ad_from_prompts.
  rewrite (bind_ok _ _ _ _ _ Himg).
  now apply video_step_on_error_text.
Qed.

Lemma image_error_reaches_video_step_witness :
  Auto.create_video_ad_from_prompts throttled_world "A red car" "The car drives"
    initial_state =
  (Ok "Error creating video: list index out of range",
   snd (Script.create_image_and_save_s3 throttled_world "A red car" initial_state)).
Proof.
  apply (image_error_reaches_video_step throttled_world "A red car" "The car drives"
           initial_state "An error occurred (ThrottlingException)").
  - vm_compute. reflexivity.
  - vm_compute. lia.
Defined.

(** *** The page without a job identifier *)

Lemma after_video_unbound fuel w video_result audio_script s :
  Py.contains video_result "ARN:" = false ->
  let audio_s3_key := "audio/ad_audio_" +:+ now_stamp w (clock_reads s) +:+ ".mp3" in
  let run := Auto.after_video fuel w video_result audio_script s in
  match synthesize_speech w audio_script, put_object w (s3_bucket w) audio_s3_key with
  | Raise e, _ =>
      fst run = Raise e /\
      calls (snd run) = calls s ++ [EvSleep 2; EvSynthesizeSpeech audio_script]
  | Ok _, Raise e =>
      fst run = Raise e /\
      calls (snd run) = calls s ++ [EvSleep 2; EvSynthesizeSpeech audio_script;
                                    EvPutObject (s3_bucket w) audio_s3_key "audio/mpeg"]
  | Ok _, Ok _ =>
      fst run = Raise Auto.name_error /\
      calls (snd run) = calls s ++ [EvSleep 2; EvSynthesizeSpeech audio_script;
                                    EvPutObject (s3_bucket w) audio_s3_key "audio/mpeg"]
  end.
Proof.
  intros Hno audio_s3_key run. unfold run, audio_s3_key.
  unfold Auto.after_video, Auto.video_arn_of. rewrite Hno.
  cbv [bind lift sleep call Auto.wait ret Script.create_audio Script.timestamp
       Auto.merge_and_display Auto.read_arn raise].
  state_simpl.
  destruct (synthesize_speech w audio_script) as [speech|e]; state_simpl.
  - destruct (put_object w (s3_bucket w) _) as [[]|e]; state_simpl;
      (split; [reflexivity | rewrite <- !app_assoc; reflexivity]).
  - split; [reflexivity | rewrite <- !app_assoc; reflexivity].
Qed.

(** When the answer of the video step holds no [ARN:], the page goes on:
    it makes no status query, has the voiceover synthesized and stored, and
    only then fails, on reading the name [video_arn] that was never
    bound.  In no world does such a run end well. *)
Theorem missing_arn_crash fuel w video_result audio_script s :
  Py.contains video_result "ARN:" = false ->
  let run := Auto.after_video fuel w video_result audio_script in
  let audio_s3_key := "audio/ad_audio_" +:+ now_stamp w (clock_reads s) +:+ ".mp3" in
  (exists e, fst (run s) = Raise e) /\
  (forall arn, ~ In (EvGetAsyncInvoke arn) (run_log run s)) /\
  (forall speech,
     synthesize_speech w audio_script = Ok speech ->
     put_object w (s3_bucket w) audio_s3_key = Ok tt ->
     fst (run s) = Raise Auto.name_error /\
     run_log run s = [EvSleep 2; EvSynthesizeSpeech audio_script;
                      EvPutObject (s3_bucket w) audio_s3_key "audio/mpeg"]).
Proof.
  intros Hno run audio_s3_key.
  pose proof (after_video_unbound fuel w video_result audio_script s Hno) as H.
  cbv zeta in H. fold audio_s3_key in H. unfold run, run_log.
  destruct (synthesize_speech w audio_script) as [speech|e].
  - destruct (put_object w (s3_bucket w) audio_s3_key) as [[]|e];
      destruct H as [Hr Hc]; rewrite Hc, drop_app_length.
    + split; [eauto|]. split; [|intros _ _ _; split; [exact Hr | reflexivity]].
      intros arn Hin. cbn [In] in Hin. intuition discriminate.
    + split; [eauto|]. split; [|intros _ _ Hp; discriminate Hp].
      intros arn Hin. cbn [In] in Hin. intuition discriminate.
  - destruct H as [Hr Hc]; rewrite Hc, drop_app_length.
    split; [eauto|]. split; [|intros speech Hs; discriminate Hs].
    intros arn Hin. cbn [In] in Hin. intuition discriminate.
Qed.

Lemma missing_arn_crash_witness :
  let run := Auto.after_video 5 smooth_world
               "Error creating video: list index out of range"
               "Drive the coast." in
  fst (run initial_state) = Raise Auto.name_error /\
  run_log run initial_state =
    [EvSleep 2; EvSynthesizeSpeech "Drive the coast.";
     EvPutObject "deb-banners" "audio/ad_audio_20250101_120000.mp3" "audio/mpeg"].
Proof.
  intros run.
  apply (missing_arn_crash 5 smooth_world "Error creating video: list index out of range"
           "Drive the coast." initial_state eq_refl) with (speech := "mp3-bytes");
    reflexivity.
Defined.

Lemma page_after_image_failure fuel w image_prompt video_prompt audio_script s e :
  canvas_image w image_prompt (randint w (rand_draws s)) = Raise e ->
  (count_char "/" e < 2)%nat ->
  Auto.run_from_prompts fuel w image_prompt video_prompt audio_script s =
  Auto.after_video fuel w "Error creating video: list index out of range" audio_script
    (with_calls (fun l => l ++ [EvSleep 1])
       (with_calls (fun l => l ++ [EvInvokeModel "amazon.nova-canvas-v1:0" image_prompt])
          (next_rand s))).
Proof.
  intros Hc He. unfold Auto.run_from_prompts.
  cbv [bind Script.create_image_and_save_s3 try_except Script.random_seed call sleep ret].
  rewrite Hc. rewrite video_step_on_error_text by exact He. reflexivity.
Qed.

(** A failure of the image model is seen by no later step of the page:
    the error text is handed to the video step, whose own error text holds
    no job identifier; the page sleeps its three seconds, stores a
    voiceover for a video that does not exist, and fails on the unbound
    name. *)
Theorem image_failure_page_run fuel w image_prompt video_prompt audio_script s e speech :
  canvas_image w image_prompt (randint w (rand_draws s)) = Raise e ->
  (count_char "/" e < 2)%nat ->
  let audio_s3_key := "audio/ad_audio_" +:+ now_stamp w (clock_reads s) +:+ ".mp3" in
  synthesize_speech w audio_script = Ok speech ->
  put_object w (s3_bucket w) audio_s3_key = Ok tt ->
  let run := Auto.run_from_prompts fuel w image_prompt video_prompt audio_script in
  fst (run s) = Raise Auto.name_error /\
  run_log run s =
    [EvInvokeModel "amazon.nova-canvas-v1:0" image_prompt; EvSleep 1; EvSleep 2;
     EvSynthesizeSpeech audio_script;
     EvPutObject (s3_bucket w) audio_s3_key "audio/mpeg"].
Proof.
  intros Hc He audio_s3_key Hs Hp run.
  unfold run, run_log.
  rewrite (page_after_image_failure fuel w image_prompt video_prompt audio_script s e Hc He).
  match goal with
  | |- context [Auto.after_video fuel w ?v audio_script ?s0] =>
      pose proof (after_video_unbound fuel w v audio_script s0 eq_refl) as H
  end.
  cbv zeta in H. state_simpl. fold audio_s3_key in H. rewrite Hs, Hp in H.
  destruct H as [Hr Hl]. split; [exact Hr|].
  rewrite Hl. rewrite <- !app_assoc. apply drop_app_length.
Qed.

Lemma image_failure_page_run_witness :
  let run := Auto.run_from_prompts 5 throttled_world "A red car" "The car drives"
               "Drive the coast." in
  fst (run initial_state) = Raise Auto.name_error /\
  run_log run initial_state =
    [EvInvokeModel "amazon.nova-canvas-v1:0" "A red car"; EvSleep 1; EvSleep 2;
     EvSynthesizeSpeech "Drive the coast.";
     EvPutObject "deb-banners" "audio/ad_audio_20250101_120000.mp3" "audio/mpeg"].
Proof.
  apply (image_failure_page_run 5 throttled_world "A red car" "The car drives"
           "Drive the coast." initial_state "An error occurred (ThrottlingException)"
           "mp3-bytes"); [reflexivity | vm_compute; lia | reflexivity | reflexivity].
Defined.

(** *** The local files of the merge step *)






